(** * proxy-checker-app: the checker engine and the batch scheduler

    A shallow embedding of [app/services/proxy_checker.py] (class
    [ProxyChecker]) and of the endpoints of
    [app/api/v1/endpoints/proxy.py], with the properties the specification
    states about them.

    Conventions.
    - Python [str] is [string]; [int] is [Z]; [float] is an IEEE-754
      binary64 value ([spec_float] at precision 53).
    - A Python call either returns a value or raises: [outcome A].
    - The network and the clock are the environment of a check: a [world]
      says what [time.time()] reads and what the probe request does. *)

From Stdlib Require Import ZArith String Ascii DecimalString SpecFloat.
From stdpp Require Import base tactics option list relations.

Local Open Scope Z_scope.

(** ** Strings *)

Module Str.

(** [s.startswith(p)] *)
Definition startswith (s p : string) : bool := String.prefix p s.

(** [s.startswith((p1, ..., pn))]: true when some element of the tuple
    is a prefix of [s]. *)
Definition startswith_any (s : string) (ps : list string) : bool :=
  existsb (startswith s) ps.

(** [str(n)] for an [int]. *)
Definition of_int (n : Z) : string := NilZero.string_of_int (Z.to_int n).

(** The relation [startswith] decides. *)
Definition starts_with (p s : string) : Prop :=
  exists rest, s = String.append p rest.

End Str.

(** ** Normalisation of a proxy specification (proxy_checker.py, 57-58) *)

Definition schemes : list string :=
  ["http://"; "https://"; "socks4://"; "socks5://"]%string.

(** [if not proxy.startswith((...)): proxy = f"http://{proxy}"] *)
Definition normalize (proxy : string) : string :=
  if negb (Str.startswith_any proxy schemes)
  then String.append "http://" proxy
  else proxy.

(** ** Python floats: IEEE-754 binary64, as the Standard Library specifies it *)

Module PyFloat.

Definition prec : Z := 53.
Definition emax : Z := 1024.

Definition float : Type := spec_float.

(** [x - y] and [x * y] *)
Definition sub (x y : float) : float := SFsub prec emax x y.
Definition mul (x y : float) : float := SFmul prec emax x y.

(** [float(n)] for an [int] that fits: the nearest double. *)
Definition of_int (n : Z) : float := binary_normalize prec emax n 0 false.

Definition zero : float := S754_zero false.

(** The integer [n] as an exact (unrounded) dyadic number. *)
Definition exact (n : Z) : float :=
  match n with
  | Z0 => S754_zero false
  | Zpos p => S754_finite false p 0
  | Zneg p => S754_finite true p 0
  end.

(** The double nearest to the quotient [a / b] of two integers, [b <> 0]:
    [SFdiv] rounds the exact quotient of any two mantissas once. *)
Definition quotient (a b : Z) : float := SFdiv prec emax (exact a) (exact b).

(** Nearest integer to [num / den] ([den > 0], [num >= 0]), ties to even. *)
Definition div_half_even (num den : Z) : Z :=
  let q := num / den in
  let r := num mod den in
  if 2 * r <? den then q
  else if den <? 2 * r then q + 1
  else if Z.even q then q else q + 1.

(** [|x| * 10^ndigits] rounded to the nearest integer, ties to even, for
    a finite [x] of mantissa [m] and exponent [e]. *)
Definition scaled (m : positive) (e : Z) (ndigits : N) : Z :=
  let num := Zpos m * 10 ^ Z.of_N ndigits in
  if 0 <=? e then num * 2 ^ e else div_half_even num (2 ^ (- e)).

(** [round(x, ndigits)] for [ndigits >= 0]: the decimal with [ndigits]
    places nearest to the exact value of [x] (ties to even), then the
    double nearest to that decimal; infinities, NaN and zeros round to
    themselves. *)
Definition round (x : float) (ndigits : N) : float :=
  match x with
  | S754_finite s m e =>
      match scaled m e ndigits with
      | Zpos k => SFdiv prec emax (S754_finite s k 0)
                    (exact (10 ^ Z.of_N ndigits))
      | _ => S754_zero s
      end
  | _ => x
  end.

(** Neither an infinity nor NaN. *)
Definition is_finite (x : float) : Prop :=
  match x with S754_zero _ | S754_finite _ _ _ => True | _ => False end.

End PyFloat.

Abbreviation float := PyFloat.float.

(** ** Exceptions and the outcome of a call *)

(** The three classes the handlers of [check_proxy] tell apart. *)
Inductive exc_class : Type :=
| TimeoutError      (** [asyncio.TimeoutError] and its subclasses *)
| OtherException    (** any other instance of [Exception] *)
| BaseOnly.         (** [BaseException] outside [Exception]: task
                        cancellation, interpreter exit *)

(** A raised exception: its class and what [str(e)] gives. *)
Record exc : Type := Exc { exc_kind : exc_class; exc_str : string }.

Definition is_TimeoutError (e : exc) : bool :=
  match exc_kind e with TimeoutError => true | _ => false end.

(** [isinstance(e, Exception)]; [asyncio.TimeoutError] is an [Exception]. *)
Definition is_Exception (e : exc) : bool :=
  match exc_kind e with BaseOnly => false | _ => true end.

Inductive outcome (A : Type) : Type :=
| Return (a : A)
| Raise (e : exc).
Arguments Return {A} a.
Arguments Raise {A} e.

Definition bind {A B} (c : outcome A) (k : A -> outcome B) : outcome B :=
  match c with
  | Return a => k a
  | Raise e => Raise e
  end.

Notation "'let!' x ':=' c 'in' k" := (bind c (fun x => k))
  (at level 10, x name, c at level 100, k at level 200).

Definition returns {A} (c : outcome A) : Prop := exists a, c = Return a.

(** ** Python values a JSON body decodes to *)

#[local] Unset Elimination Schemes.
Inductive pyval : Type :=
| PyNone
| PyBool (b : bool)
| PyInt (n : Z)
| PyFloat (x : float)
| PyStr (s : string)
| PyList (l : list pyval)
| PyDict (d : list (string * pyval)).
#[local] Set Elimination Schemes.

(** [type(v).__name__] *)
Definition type_name (v : pyval) : string :=
  match v with
  | PyNone => "NoneType"
  | PyBool _ => "bool"
  | PyInt _ => "int"
  | PyFloat _ => "float"
  | PyStr _ => "str"
  | PyList _ => "list"
  | PyDict _ => "dict"
  end.

(** Lookup in a decoded JSON object, whose keys are distinct. *)
Fixpoint dict_lookup (d : list (string * pyval)) (k : string) : option pyval :=
  match d with
  | [] => None
  | (k', v) :: d' => if String.eqb k' k then Some v else dict_lookup d' k
  end.

(** [data.get(k)]: the value under [k], [None] when the key is absent;
    a value that is not a [dict] has no [get] attribute. *)
Definition py_get (data : pyval) (k : string) : outcome pyval :=
  match data with
  | PyDict d => Return (default PyNone (dict_lookup d k))
  | _ => Raise (Exc OtherException
                  (String.append "'" (String.append (type_name data)
                     "' object has no attribute 'get'")))
  end.

(** ** The environment of one check *)

(** The arguments of [session.get(test_url, proxy=..., timeout=
    ClientTimeout(total=...), ssl=...)]. *)
Record request : Type := Request {
  req_url : string;
  req_proxy : string;
  req_total_timeout : Z;
  req_ssl : bool
}.

(** A response entered by [async with session.get(...) as response]. *)
Record response : Type := Response {
  resp_status : Z;                (** [response.status] *)
  resp_json : outcome pyval       (** [await response.json()] *)
}.

(** What one call of [check_proxy] meets: the two readings of
    [time.time()] and what the probe request does.  Raising covers every
    failure of the session and of the request, the total timeout among
    them.  Leaving the two [async with] blocks is taken not to raise. *)
Record world : Type := World {
  time_start : float;                      (** line 60 *)
  time_response : float;                   (** line 72 *)
  get : request -> outcome response        (** lines 65-71 *)
}.

(** ** The result record (proxy_checker.py, 11-29) *)

Inductive ProxyStatus : Type := WORKING | FAILED | TIMEOUT.

#[global] Instance ProxyStatus_eq_dec : EqDecision ProxyStatus.
Proof. solve_decision. Defined.

(** [ProxyStatus.value] *)
Definition value (s : ProxyStatus) : string :=
  match s with
  | WORKING => "working"
  | FAILED => "failed"
  | TIMEOUT => "timeout"
  end.

Definition ProxyStatus_eqb (a b : ProxyStatus) : bool :=
  match a, b with
  | WORKING, WORKING | FAILED, FAILED | TIMEOUT, TIMEOUT => true
  | _, _ => false
  end.

(** The dataclass [ProxyResult].  [None] is [None] for the two fields whose
    type the code fixes and [PyNone] for the three that hold whatever the
    JSON body gave. *)
Record ProxyResult : Type := mkProxyResult {
  proxy : string;
  status : ProxyStatus;
  response_time : option float;
  ip_address : pyval;
  country : pyval;
  city : pyval;
  error : option string
}.

(** The constructor with the defaults of the dataclass left in place. *)
Definition failure (p : string) (s : ProxyStatus) (msg : string) : ProxyResult :=
  {| proxy := p; status := s; response_time := None;
     ip_address := PyNone; country := PyNone; city := PyNone;
     error := Some msg |}.

(** ** The checker engine (proxy_checker.py, 32-103) *)

Record ProxyChecker : Type := mkProxyChecker {
  timeout : Z;
  test_url : string
}.

(** [try: body except asyncio.TimeoutError: h1 except Exception as e: h2];
    an exception neither clause matches goes on to the caller. *)
Definition try_except {A} (body : outcome A)
    (on_timeout : A) (on_exception : exc -> A) : outcome A :=
  match body with
  | Return a => Return a
  | Raise e =>
      if is_TimeoutError e then Return on_timeout
      else if is_Exception e then Return (on_exception e)
      else Raise e
  end.

Definition check_proxy (self : ProxyChecker) (proxy0 : string) (w : world)
    : outcome ProxyResult :=
  let proxy := normalize proxy0 in
  let start_time := time_start w in
  try_except
    (let proxy_url := proxy in
     let! response := get w {| req_url := test_url self;
                               req_proxy := proxy_url;
                               req_total_timeout := timeout self;
                               req_ssl := false |} in
     let response_time := PyFloat.sub (time_response w) start_time in
     if resp_status response =? 200 then
       let! data := resp_json response in
       let! query := py_get data "query" in
       let! country_ := py_get data "country" in
       let! city_ := py_get data "city" in
       Return {| proxy := proxy; status := WORKING;
                 response_time := Some (PyFloat.round response_time 2);
                 ip_address := query; country := country_; city := city_;
                 error := None |}
     else
       Return (failure proxy FAILED
                 (String.append "HTTP " (Str.of_int (resp_status response)))))
    (failure proxy TIMEOUT "Connection timeout")
    (fun e => failure proxy FAILED (exc_str e)).

(** ** Names for the paths of [check_proxy] *)

(** The request [check_proxy] sends for a proxy specification. *)
Definition probe_request (self : ProxyChecker) (p : string) : request :=
  {| req_url := test_url self; req_proxy := normalize p;
     req_total_timeout := timeout self; req_ssl := false |}.

(** What the two [except] clauses make of an exception of the [try] body. *)
Definition handled (p : string) (e : exc) : outcome ProxyResult :=
  if is_TimeoutError e
  then Return (failure (normalize p) TIMEOUT "Connection timeout")
  else if is_Exception e
       then Return (failure (normalize p) FAILED (exc_str e))
       else Raise e.

(** The record built on the 200 path from a decoded JSON object. *)
Definition working_result (p : string) (w : world)
    (d : list (string * pyval)) : ProxyResult :=
  {| proxy := normalize p; status := WORKING;
     response_time :=
       Some (PyFloat.round (PyFloat.sub (time_response w) (time_start w)) 2);
     ip_address := default PyNone (dict_lookup d "query");
     country := default PyNone (dict_lookup d "country");
     city := default PyNone (dict_lookup d "city");
     error := None |}.

Ltac check_proxy_paths :=
  unfold check_proxy, try_except, handled, bind, py_get, probe_request in *;
  repeat match goal with
    | H : ?x = _ |- context [?x] => rewrite H
    end;
  repeat match goal with
    | |- context [get ?w ?r] =>
        let E := fresh "Eget" in destruct (get w r) as [?resp|?e] eqn:E
    | |- context [resp_status ?r =? 200] =>
        let E := fresh "Estatus" in destruct (resp_status r =? 200) eqn:E
    | |- context [resp_json ?r] =>
        let E := fresh "Ejson" in destruct (resp_json r) as [?data|?e] eqn:E
    | |- context [match ?d with PyNone => _ | _ => _ end] => destruct d
    | |- context [is_TimeoutError ?e] =>
        is_var e;
        let E := fresh "Etimeout" in destruct (is_TimeoutError e) eqn:E
    | |- context [is_Exception ?e] =>
        is_var e;
        let E := fresh "Eexc" in destruct (is_Exception e) eqn:E
    | _ => progress cbn [is_TimeoutError is_Exception exc_kind]
    end.

(** An environment whose failures are errors: whatever the probe raises is
    an instance of [Exception]. *)
Definition raises_only_errors (w : world) : Prop :=
  (forall req e, get w req = Raise e -> is_Exception e = true) /\
  (forall req resp e, get w req = Return resp ->
     resp_json resp = Raise e -> is_Exception e = true).

(** ** The batch scheduler (proxy_checker.py, 105-127)

    [check_proxies] runs on the event loop: the coroutines
    [check_with_semaphore(proxy)] are interleaved, and [asyncio.gather]
    resumes its caller when all of them are done, or at the first
    exception.  The model is the transition system of that run.  A task is
    before [async with semaphore] ([Waiting]), inside it ([InFlight],
    where [check_proxy] does its network I/O), or done; the semaphore is
    its counter.  Any waiting task may be admitted while the counter is
    positive, any task in flight may finish next.  The run is that of a
    batch its caller leaves alone: cancelling the batch, or one of its
    tasks, from outside is not a step of the model. *)

Module Batch.

Inductive task : Type :=
| Waiting
| InFlight
| Finished (o : outcome ProxyResult).

Record state : Type := State {
  sem_value : Z;              (** the counter of [semaphore] *)
  tasks : list task;          (** one per input proxy, in input order *)
  completed : list nat        (** indices, in the order the tasks ended *)
}.

Definition is_in_flight (t : task) : nat :=
  match t with InFlight => 1%nat | _ => 0%nat end.

(** Steps a task still has to take. *)
Definition pending_steps (t : task) : nat :=
  match t with Waiting => 2%nat | InFlight => 1%nat | Finished _ => 0%nat end.

Definition weight (f : task -> nat) (l : list task) : nat :=
  sum_list (f <$> l).

(** The number of checks inside [async with semaphore]. *)
Definition in_flight (s : state) : Z := Z.of_nat (weight is_in_flight (tasks s)).

Definition returned (t : task) : option ProxyResult :=
  match t with Finished (Return r) => Some r | _ => None end.

(** The exception of the task that raised first, if one did. *)
Fixpoint first_raised (ts : list task) (order : list nat) : option exc :=
  match order with
  | [] => None
  | i :: order' =>
      match ts !! i with
      | Some (Finished (Raise e)) => Some e
      | _ => first_raised ts order'
      end
  end.

(** What [await asyncio.gather] of the tasks has for its caller in a state:
    the first exception as soon as there is one, the results of all
    tasks in the order of the arguments once all have returned, nothing
    before that. *)
Definition gather (s : state) : option (outcome (list ProxyResult)) :=
  match first_raised (tasks s) (completed s) with
  | Some e => Some (Raise e)
  | None => Return <$> mapM returned (tasks s)
  end.

Section Run.

Variable self : ProxyChecker.
Variable proxies : list string.
Variable max_concurrent : Z.
(** The environment the check of the [i]-th proxy meets. *)
Variable worlds : nat -> world.

(** [asyncio.Semaphore(max_concurrent)] refuses a negative value; the
    tasks are created in input order, none started. *)
Definition init : outcome state :=
  if max_concurrent <? 0
  then Raise (Exc OtherException "Semaphore initial value must be >= 0")
  else Return {| sem_value := max_concurrent;
                 tasks := replicate (length proxies) Waiting;
                 completed := [] |}.

Inductive step : state -> state -> Prop :=
| step_acquire i s :
    tasks s !! i = Some Waiting ->
    0 < sem_value s ->
    step s {| sem_value := sem_value s - 1;
              tasks := <[i := InFlight]> (tasks s);
              completed := completed s |}
| step_release i p s :
    tasks s !! i = Some InFlight ->
    proxies !! i = Some p ->
    step s {| sem_value := sem_value s + 1;
              tasks := <[i := Finished (check_proxy self p (worlds i))]>
                         (tasks s);
              completed := completed s ++ [i] |}.

(** The outcome of each check, in input order. *)
Definition outcomes : list (outcome ProxyResult) :=
  imap (fun i p => check_proxy self p (worlds i)) proxies.

Definition reachable (s : state) : Prop :=
  exists s0, init = Return s0 /\ rtc step s0 s.

(** What every state of a run satisfies. *)
Record invariant (s : state) : Prop := {
  inv_length : length (tasks s) = length proxies;
  inv_sem : sem_value s + in_flight s = max_concurrent;
  inv_sem_nonneg : 0 <= sem_value s;
  inv_finished : forall i o,
    tasks s !! i = Some (Finished o) ->
    exists p, proxies !! i = Some p /\ o = check_proxy self p (worlds i)
}.

(** [check_proxies(proxies, max_concurrent)] ends with [out]. *)
Definition check_proxies (out : outcome (list ProxyResult)) : Prop :=
  match init with
  | Raise e => out = Raise e
  | Return s0 => exists s, rtc step s0 s /\ gather s = Some out
  end.

End Run.

End Batch.

(** ** The response models (core/schemas.py, 46-83) *)

Module Schemas.

Record ProxyCheckResponse : Type := mkProxyCheckResponse {
  proxy : string;
  status : string;
  response_time : option float;
  ip_address : pyval;
  country : pyval;
  city : pyval;
  error : option string
}.

Record ProxyBatchCheckResponse : Type := mkProxyBatchCheckResponse {
  results : list ProxyCheckResponse;
  total : Z;
  working : Z;
  failed : Z;
  success_rate : float
}.

End Schemas.

(** ** Parts of the response of a batch (endpoints/proxy.py, 84-110) *)

Module Endpoint.

(** [sum(xs)] over ints *)
Definition py_sum (xs : list Z) : Z := fold_left Z.add xs 0.

(** [a / b] over ints: the nearest double to the quotient. *)
Definition truediv (a b : Z) : outcome float :=
  if b =? 0 then Raise (Exc OtherException "division by zero")
  else match PyFloat.quotient a b with
       | S754_infinity _ =>
           Raise (Exc OtherException
                    "integer division result too large for a float")
       | q => Return q
       end.

(** The fields of one element of the comprehension of lines 85-96. *)
Definition to_response (r : ProxyResult) : Schemas.ProxyCheckResponse :=
  {| Schemas.proxy := proxy r;
     Schemas.status := value (status r);
     Schemas.response_time := response_time r;
     Schemas.ip_address := ip_address r;
     Schemas.country := country r;
     Schemas.city := city r;
     Schemas.error := error r |}.

(** The number of results of a given status. *)
Definition count (st : ProxyStatus) (results : list ProxyResult) : Z :=
  Z.of_nat (length (filter (fun r => status r = st) results)).

End Endpoint.


(** ** Sample inputs *)

Module Sample.

Definition checker : ProxyChecker :=
  {| timeout := 10; test_url := "http://ip-api.com/json/" |}.

(** 1700000000.0 and 1700000000.1234 *)
Definition t0 : float := PyFloat.of_int 1700000000.
Definition t1 : float := PyFloat.quotient 17000000001234 10000.

Definition answers (r : outcome response) : world :=
  {| time_start := t0; time_response := t1; get := fun _ => r |}.

Definition geo : pyval :=
  PyDict [("query", PyStr "1.2.3.4"); ("country", PyStr "US");
          ("city", PyStr "Ashburn")]%string.

(** 200 with the JSON object of the probe endpoint. *)
Definition world_ok : world := answers (Return (Response 200 (Return geo))).

(** 200 with a JSON object that has no [city]. *)
Definition world_no_city : world :=
  answers (Return (Response 200
    (Return (PyDict [("query", PyStr "1.2.3.4"); ("country", PyStr "US")]%string)))).

(** 403; the body is never read. *)
Definition world_403 : world := answers (Return (Response 403 (Return PyNone))).

(** 200 with an HTML page: [response.json()] raises. *)
Definition world_html : world :=
  answers (Return (Response 200
    (Raise (Exc OtherException
              "Attempt to decode JSON with unexpected mimetype: text/html")))).

(** 200 with the JSON array [[]]. *)
Definition world_json_array : world :=
  answers (Return (Response 200 (Return (PyList [])))).

(** The total timeout expires. *)
Definition world_timeout : world := answers (Raise (Exc TimeoutError "")).

(** 200, then the total timeout expires while the body is read. *)
Definition world_body_timeout : world :=
  answers (Return (Response 200 (Raise (Exc TimeoutError "")))).

(** The connection is refused. *)
Definition world_refused : world :=
  answers (Raise (Exc OtherException "Cannot connect to host 1.2.3.4:8080")).

(** The task is cancelled while the request is under way. *)
Definition world_cancelled : world := answers (Raise (Exc BaseOnly "")).

(** A batch of three: the first proxy works, the second answers 403, the
    third times out. *)
Definition batch : list string := ["a:1"; "b:2"; "c:3"]%string.

Definition batch_worlds (i : nat) : world :=
  match i with
  | 0%nat => world_ok
  | 1%nat => world_403
  | _ => world_timeout
  end.

Definition batch_results : list ProxyResult :=
  [working_result "a:1" world_ok
     [("query", PyStr "1.2.3.4"); ("country", PyStr "US");
      ("city", PyStr "Ashburn")]%string;
   failure "http://b:2" FAILED "HTTP 403";
   failure "http://c:3" TIMEOUT "Connection timeout"].

End Sample.

(** * The HTTP layer *)

(** ** Settings (core/config.py, 5-35) *)

Module Config.

(** The fields of [Settings] the endpoints read, with their defaults. *)
Record Settings : Type := mkSettings {
  app_name : string;
  app_version : string;
  default_timeout : Z;
  default_max_concurrent : Z;
  test_url : string
}.

Definition defaults : Settings :=
  {| app_name := "Proxy Checker API";
     app_version := "1.0.0";
     default_timeout := 10;
     default_max_concurrent := 10;
     test_url := "http://ip-api.com/json/" |}.

End Config.

(** ** The request models (core/schemas.py, 6-43) *)

Module ProxyCheckRequest.

Record t : Type := mk {
  proxy : string;
  timeout : Z
}.

(** The constraints of the fields: [timeout] has [ge=1, le=60]. *)
Definition valid (r : t) : bool :=
  (1 <=? timeout r) && (timeout r <=? 60).

End ProxyCheckRequest.

Module ProxyBatchCheckRequest.

Record t : Type := mk {
  proxies : list string;
  timeout : Z;
  max_concurrent : Z
}.

(** The constraints of the fields: [proxies] has [min_length=1,
    max_length=100], [timeout] has [ge=1, le=60], [max_concurrent] has
    [ge=1, le=50]. *)
Definition valid (r : t) : bool :=
  (1 <=? Z.of_nat (length (proxies r))) &&
  (Z.of_nat (length (proxies r)) <=? 100) &&
  (1 <=? timeout r) && (timeout r <=? 60) &&
  (1 <=? max_concurrent r) && (max_concurrent r <=? 50).

End ProxyBatchCheckRequest.

(** ** The endpoints (endpoints/proxy.py, 22-112) *)

Module Api.

(** What a call of an endpoint ends with: a response model, an
    [HTTPException], or an exception the endpoint lets through. *)
Inductive http (A : Type) : Type :=
| Ok (a : A)
| HTTPException (status_code : Z) (detail : string)
| Passed (e : exc).
Arguments Ok {A} a.
Arguments HTTPException {A} status_code detail.
Arguments Passed {A} e.

(** [try: body except Exception as e:
      raise HTTPException(status_code=500, detail=f"<prefix>{str(e)}")] *)
Definition except_Exception {A} (prefix : string) (body : outcome A) : http A :=
  match body with
  | Return a => Ok a
  | Raise e =>
      if is_Exception e
      then HTTPException 500 (String.append prefix (exc_str e))
      else Passed e
  end.

(** A value an [Optional[str]] field of a response model takes: a string
    or [None]; numbers, booleans, lists and dicts are refused. *)
Definition is_optional_str (v : pyval) : bool :=
  match v with
  | PyNone | PyStr _ => true
  | _ => false
  end.

(** Whether [ProxyCheckResponse(...)] accepts the fields of a result:
    [proxy], [status], [response_time] and [error] have the types of the
    model by construction, the three geolocation fields hold what the probe
    body gave. *)
Definition response_valid (r : ProxyResult) : bool :=
  is_optional_str (ip_address r) &&
  is_optional_str (country r) &&
  is_optional_str (city r).

Section Endpoints.

Variable settings : Config.Settings.

(** [str(e)] of the [ValidationError] the model raises for a result it
    refuses; the text is the validation library's. *)
Variable validation_error_str : ProxyResult -> string.

(** [ProxyCheckResponse(proxy=r.proxy, status=r.status.value, ...)] *)
Definition make_response (r : ProxyResult)
    : outcome Schemas.ProxyCheckResponse :=
  if response_valid r
  then Return (Endpoint.to_response r)
  else Raise (Exc OtherException (validation_error_str r)).

(** The comprehension of lines 85-96: the models are built in order, and
    the first refusal ends it. *)
Fixpoint make_responses (rs : list ProxyResult)
    : outcome (list Schemas.ProxyCheckResponse) :=
  match rs with
  | [] => Return []
  | r :: rs' =>
      let! x := make_response r in
      let! xs := make_responses rs' in
      Return (x :: xs)
  end.

(** Lines 84-110: the response of a batch from the results of
    [check_proxies]. *)
Definition batch_response (results : list ProxyResult)
    : outcome Schemas.ProxyBatchCheckResponse :=
  let! response_results := make_responses results in
  let total := Z.of_nat (length results) in
  let working :=
    Endpoint.py_sum
      (flat_map (fun r => if ProxyStatus_eqb (status r) WORKING
                          then [1] else []) results) in
  let failed := total - working in
  let! success_rate :=
    (if 0 <? total
     then let! ratio := Endpoint.truediv working total in
          Return (PyFloat.round
                    (PyFloat.mul ratio (PyFloat.of_int 100)) 2)
     else Return PyFloat.zero) in
  Return {| Schemas.results := response_results;
            Schemas.total := total;
            Schemas.working := working;
            Schemas.failed := failed;
            Schemas.success_rate := success_rate |}.

(** [POST /check] (lines 22-52) *)
Definition check_proxy (request : ProxyCheckRequest.t) (w : world)
    : http Schemas.ProxyCheckResponse :=
  except_Exception "Error checking proxy: "
    (let checker := {| timeout := ProxyCheckRequest.timeout request;
                       test_url := Config.test_url settings |} in
     let! result := check_proxy checker (ProxyCheckRequest.proxy request) w in
     make_response result).

(** [POST /check-batch] (lines 61-112), over the runs of
    [check_proxies]. *)
Definition check_batch (request : ProxyBatchCheckRequest.t)
    (worlds : nat -> world)
    (out : http Schemas.ProxyBatchCheckResponse) : Prop :=
  let checker := {| timeout := ProxyBatchCheckRequest.timeout request;
                    test_url := Config.test_url settings |} in
  exists o,
    Batch.check_proxies checker (ProxyBatchCheckRequest.proxies request)
      (ProxyBatchCheckRequest.max_concurrent request) worlds o /\
    out = except_Exception "Error checking proxies: "
            (let! results := o in batch_response results).

End Endpoints.

End Api.

(** An environment whose 200 bodies, when they are JSON objects, hold a
    string or null under each of the three keys [check_proxy] reads. *)
Definition geolocation_is_text (w : world) : Prop :=
  forall req resp d k,
    get w req = Return resp ->
    resp_json resp = Return (PyDict d) ->
    In k ["query"; "country"; "city"]%string ->
    Api.is_optional_str (default PyNone (dict_lookup d k)) = true.

(** The number of response models of a batch with a given status string. *)
Definition count_status (st : string)
    (xs : list Schemas.ProxyCheckResponse) : Z :=
  Z.of_nat (length (List.filter
                      (fun x => String.eqb (Schemas.status x) st) xs)).

(** Every task that has ended is in the log of completions. *)
Definition logged (s : Batch.state) : Prop :=
  forall i o, Batch.tasks s !! i = Some (Batch.Finished o) ->
              i ∈ Batch.completed s.

(** ** The success rate, hundredth by hundredth *)

(** Equality of two floats as values of the format. *)
Definition float_eqb (x y : float) : bool :=
  match x, y with
  | S754_zero a, S754_zero b => Bool.eqb a b
  | S754_infinity a, S754_infinity b => Bool.eqb a b
  | S754_nan, S754_nan => true
  | S754_finite a m e, S754_finite b m' e' =>
      Bool.eqb a b && Pos.eqb m m' && Z.eqb e e'
  | _, _ => false
  end.

(** [round((working / total * 100), 2)], line 102. *)
Definition success_rate_of (working total : Z) : float :=
  PyFloat.round
    (PyFloat.mul (PyFloat.quotient working total) (PyFloat.of_int 100)) 2.

(** Whether the rate of [w] out of [t] is the double nearest to [k / 100]
    for an integer [k] nearest to [10000 * w / t]. *)
Definition rate_checked (w t : Z) : bool :=
  let k := (10000 * w) / t in
  (float_eqb (success_rate_of w t) (PyFloat.quotient k 100) &&
   (2 * (10000 * w - k * t) <=? t)) ||
  (float_eqb (success_rate_of w t) (PyFloat.quotient (k + 1) 100) &&
   (2 * ((k + 1) * t - 10000 * w) <=? t)).

(** The check for every batch of at most [n] proxies. *)
Definition rates_checked (n : nat) : bool :=
  forallb (fun t =>
             forallb (fun w => rate_checked (Z.of_nat w) (Z.of_nat t))
               (seq 0 (S t)))
    (seq 1 n).

(** ** More sample inputs *)

Module Cases.

(** 200 with a JSON object whose [query] is a number. *)
Definition world_numeric_ip : world :=
  Sample.answers (Return (Response 200
    (Return (PyDict [("query", PyInt 16909060); ("country", PyStr "US")]%string)))).

(** The message of the validation library is not reproduced. *)
Definition validation_error_str (r : ProxyResult) : string :=
  "1 validation error for ProxyCheckResponse".

(** The first proxy works, the check of the second is cancelled. *)
Definition cancelled_worlds (i : nat) : world :=
  match i with
  | 0%nat => Sample.world_ok
  | _ => Sample.world_cancelled
  end.

(** The first proxy works, the second works with a numeric [query]. *)
Definition numeric_worlds (i : nat) : world :=
  match i with
  | 0%nat => Sample.world_ok
  | _ => world_numeric_ip
  end.

Definition single : ProxyCheckRequest.t :=
  {| ProxyCheckRequest.proxy := "1.2.3.4:8080";
     ProxyCheckRequest.timeout := 10 |}.

Definition three : ProxyBatchCheckRequest.t :=
  {| ProxyBatchCheckRequest.proxies := Sample.batch;
     ProxyBatchCheckRequest.timeout := 10;
     ProxyBatchCheckRequest.max_concurrent := 2 |}.

Definition two (limit : Z) : ProxyBatchCheckRequest.t :=
  {| ProxyBatchCheckRequest.proxies := ["a:1"; "b:2"]%string;
     ProxyBatchCheckRequest.timeout := 10;
     ProxyBatchCheckRequest.max_concurrent := limit |}.

End Cases.

(** * Properties *)

(** ** Prefix tests *)

Lemma startswith_spec (s p : string) :
  Str.startswith s p = true <-> Str.starts_with p s.
Proof.
  unfold Str.startswith, Str.starts_with.
  revert s; induction p as [|c p IH]; intros s; simpl.
  - split; [intros _; exists s; reflexivity | intros _; destruct s; reflexivity].
  - destruct s as [|d s]; simpl.
    + split; [discriminate | intros [rest H]; discriminate].
    + destruct (Ascii.ascii_dec c d) as [->|Hne].
      * rewrite IH. split; intros [rest H]; exists rest; congruence.
      * split; [discriminate | intros [rest H]; congruence].
Qed.

Lemma startswith_any_spec (s : string) (ps : list string) :
  Str.startswith_any s ps = true <->
  exists p, In p ps /\ Str.starts_with p s.
Proof.
  unfold Str.startswith_any. rewrite existsb_exists.
  split; intros (p & Hin & H); exists p; split; auto;
    apply startswith_spec; exact H.
Qed.

Lemma startswith_any_false (s : string) (ps : list string) :
  Str.startswith_any s ps = false <->
  forall p, In p ps -> ~ Str.starts_with p s.
Proof.
  rewrite <- Bool.not_true_iff_false, startswith_any_spec. split.
  - intros H p Hin Hp. apply H. exists p. auto.
  - intros H (p & Hin & Hp). exact (H p Hin Hp).
Qed.

Lemma normalize_with_scheme (s : string) :
  Str.startswith_any s schemes = true -> normalize s = s.
Proof. unfold normalize. intros ->. reflexivity. Qed.

Lemma normalize_without_scheme (s : string) :
  Str.startswith_any s schemes = false ->
  normalize s = String.append "http://" s.
Proof. unfold normalize. intros ->. reflexivity. Qed.

Lemma normalize_has_scheme (s : string) :
  Str.startswith_any (normalize s) schemes = true.
Proof.
  unfold normalize.
  destruct (Str.startswith_any s schemes) eqn:E; cbn [negb]; [exact E|].
  apply startswith_any_spec. exists "http://"%string. split.
  - left. reflexivity.
  - exists s. reflexivity.
Qed.

(** ** Floats: a quotient of at most 1 is finite *)

Lemma digits2_pos_size p : digits2_pos p = Pos.size p.
Proof. induction p; simpl; congruence. Qed.

(** A mantissa of at most [2^k] has at most [k + 1] binary digits. *)
Lemma Zdigits2_le m k : 0 <= k -> 0 <= m <= 2 ^ k -> Zdigits2 m <= k + 1.
Proof.
  intros Hk [Hm Hle]. destruct m as [|p|p]; simpl; try lia.
  rewrite digits2_pos_size.
  pose proof (Pos.size_le p) as H.
  apply Pos2Z.pos_le_pos in H. rewrite Pos2Z.inj_pow in H.
  assert (2 ^ Z.pos (Pos.size p) <= 2 ^ (k + 1)) as H'.
  { rewrite Z.pow_add_r by lia. change (2 ^ 1) with 2. lia. }
  apply Z.pow_le_mono_r_iff in H'; lia.
Qed.

Lemma shr_1_bound mrs : 0 <= shr_m mrs -> 0 <= shr_m (shr_1 mrs) /\ 2 * shr_m (shr_1 mrs) <= shr_m mrs.
Proof.
  destruct mrs as [m r s]. simpl. destruct m as [|[p|p|]|p]; simpl; lia.
Qed.

Lemma iter_shr_1_bound p : forall mrs, 0 <= shr_m mrs ->
  0 <= shr_m (SpecFloat.iter_pos shr_1 p mrs) /\ 2 ^ Zpos p * shr_m (SpecFloat.iter_pos shr_1 p mrs) <= shr_m mrs.
Proof.
  induction p as [p IH|p IH|]; intros mrs H; simpl SpecFloat.iter_pos.
  - destruct (shr_1_bound mrs H) as [H1 H2].
    destruct (IH _ H1) as [H3 H4]. destruct (IH _ H3) as [H5 H6].
    split; [assumption|].
    replace (Z.pos p~1) with (Z.pos p + Z.pos p + 1) by lia.
    rewrite !Z.pow_add_r by lia. change (2 ^ 1) with 2.
    set (P := 2 ^ Z.pos p) in *.
    assert (0 < P) by (apply Z.pow_pos_nonneg; lia).
    set (m3 := shr_m (SpecFloat.iter_pos shr_1 p (SpecFloat.iter_pos shr_1 p (shr_1 mrs)))) in *.
    set (m2 := shr_m (SpecFloat.iter_pos shr_1 p (shr_1 mrs))) in *.
    assert (P * (P * m3) <= P * m2) by (apply Z.mul_le_mono_nonneg_l; lia).
    lia.
  - destruct (IH _ H) as [H3 H4]. destruct (IH _ H3) as [H5 H6].
    split; [assumption|].
    replace (Z.pos p~0) with (Z.pos p + Z.pos p) by lia.
    rewrite !Z.pow_add_r by lia.
    set (P := 2 ^ Z.pos p) in *.
    assert (0 < P) by (apply Z.pow_pos_nonneg; lia).
    set (m3 := shr_m (SpecFloat.iter_pos shr_1 p (SpecFloat.iter_pos shr_1 p mrs))) in *.
    set (m2 := shr_m (SpecFloat.iter_pos shr_1 p mrs)) in *.
    assert (P * (P * m3) <= P * m2) by (apply Z.mul_le_mono_nonneg_l; lia).
    lia.
  - apply shr_1_bound in H. change (2 ^ 1) with 2. lia.
Qed.

(** Truncation to the format keeps a value of at most [2^K] at most
    [2^K], and brings its exponent to at most [K]. *)
Lemma shr_fexp_bound m e l K :
  0 <= m -> e <= K -> m <= 2 ^ (K - e) -> 0 <= K <= 52 ->
  let '(mrs, e') := shr_fexp PyFloat.prec PyFloat.emax m e l in
  0 <= shr_m mrs /\ e' <= Z.max e (K + 1 - PyFloat.prec) /\ e' <= K /\ shr_m mrs <= 2 ^ (K - e').
Proof.
  intros Hm HeK Hle HK. unfold shr_fexp.
  assert (Zdigits2 m <= K - e + 1) as Hd by (apply Zdigits2_le; lia).
  assert (fexp PyFloat.prec PyFloat.emax (Zdigits2 m + e) <= K + 1 - PyFloat.prec) as Hf.
  { unfold fexp, SpecFloat.emin, PyFloat.prec, PyFloat.emax. lia. }
  assert (PyFloat.prec = 53) as Hprec by reflexivity.
  assert (shr_m (shr_record_of_loc m l) = m) as Hrec.
  { destruct l as [|[]]; reflexivity. }
  unfold shr.
  destruct (fexp PyFloat.prec PyFloat.emax (Zdigits2 m + e) - e) as [|n|n] eqn:En.
  - rewrite Hrec. repeat split; lia.
  - pose proof (iter_shr_1_bound n (shr_record_of_loc m l)) as Hit.
    rewrite Hrec in Hit. destruct (Hit Hm) as [H0 H1].
    split; [assumption|]. split; [lia|]. split; [lia|].
    assert (0 < 2 ^ Z.pos n) by (apply Z.pow_pos_nonneg; lia).
    assert (2 ^ (K - e) = 2 ^ Z.pos n * 2 ^ (K - (e + Z.pos n))) as Hsplit.
    { rewrite <- Z.pow_add_r by lia. f_equal. lia. }
    rewrite Hsplit in Hle.
    apply Z.mul_le_mono_pos_l with (p := 2 ^ Z.pos n); lia.
  - rewrite Hrec. repeat split; lia.
Qed.

Lemma round_nearest_even_bound m l :
  m <= round_nearest_even m l <= m + 1.
Proof.
  destruct l as [|[]]; simpl; try lia. destruct (Z.even m); lia.
Qed.

Lemma binary_round_aux_finite sx mx ex lx :
  0 <= mx -> ex <= 0 -> mx <= 2 ^ (- ex) ->
  PyFloat.is_finite (binary_round_aux PyFloat.prec PyFloat.emax sx mx ex lx).
Proof.
  intros Hm He Hle. unfold binary_round_aux.
  pose proof (shr_fexp_bound mx ex lx 0 Hm He) as H1.
  destruct (shr_fexp PyFloat.prec PyFloat.emax mx ex lx) as [mrs' e'].
  destruct H1 as (H1a & _ & H1c & H1d); [exact Hle | lia |].
  pose proof (round_nearest_even_bound (shr_m mrs') (loc_of_shr_record mrs')) as Hr.
  set (mx' := round_nearest_even (shr_m mrs') (loc_of_shr_record mrs')) in *.
  assert (mx' <= 2 ^ (1 - e')) as Hmx'.
  { replace (1 - e') with (1 + (0 - e')) by lia.
    rewrite Z.pow_add_r by lia. change (2 ^ 1) with 2.
    assert (0 < 2 ^ (0 - e')) by (apply Z.pow_pos_nonneg; lia). lia. }
  pose proof (shr_fexp_bound mx' e' loc_Exact 1) as H2.
  destruct (shr_fexp PyFloat.prec PyFloat.emax mx' e' loc_Exact) as [mrs'' e''].
  destruct H2 as (H2a & H2b & H2c & _); [lia | lia | exact Hmx' | lia |].
  destruct (shr_m mrs'') as [|m|m]; simpl; [exact I | | lia].
  replace (e'' <=? PyFloat.emax - PyFloat.prec) with true; [exact I|].
  symmetry. apply Z.leb_le. unfold PyFloat.emax, PyFloat.prec. lia.
Qed.

Lemma SFdiv_le_finite (a b : positive) :
  (a <= b)%positive ->
  PyFloat.is_finite (SFdiv PyFloat.prec PyFloat.emax (S754_finite false a 0) (S754_finite false b 0)).
Proof.
  intros Hab. unfold SFdiv, SFdiv_core_binary.
  set (e' := Z.min _ _).
  assert (e' <= 0) as He' by (subst e'; lia).
  set (m' := match 0 - 0 - e' with Z0 => Z.pos a | Z.pos _ => Z.shiftl (Z.pos a) (0 - 0 - e') | Z.neg _ => 0 end).
  assert (m' = Z.pos a * 2 ^ (- e')) as Hm'.
  { subst m'. replace (0 - 0 - e') with (- e') by lia.
    destruct (- e') as [|s|s] eqn:Es; [simpl; lia | | lia].
    rewrite Z.shiftl_mul_pow2 by lia. reflexivity. }
  pose proof (Z.div_eucl_eq m' (Z.pos b)) as Heq.
  pose proof (Z.mod_pos_bound m' (Z.pos b)) as Hmod.
  unfold Z.modulo in Hmod.
  destruct (Z.div_eucl m' (Z.pos b)) as [q r].
  specialize (Heq ltac:(lia)). specialize (Hmod ltac:(lia)).
  assert (0 < 2 ^ (- e')) by (apply Z.pow_pos_nonneg; lia).
  apply binary_round_aux_finite; [nia | lia | ].
  apply Pos2Z.pos_le_pos in Hab.
  assert (Z.pos b * q <= Z.pos b * 2 ^ (- e')) by nia.
  apply Z.mul_le_mono_pos_l with (p := Z.pos b); lia.
Qed.

(** ** The checker engine, path by path *)

Lemma check_proxy_get_raises self p w e :
  get w (probe_request self p) = Raise e ->
  check_proxy self p w = handled p e.
Proof. intros H. check_proxy_paths; reflexivity. Qed.

Lemma check_proxy_not_200 self p w resp :
  get w (probe_request self p) = Return resp ->
  resp_status resp <> 200 ->
  check_proxy self p w =
    Return (failure (normalize p) FAILED
              (String.append "HTTP " (Str.of_int (resp_status resp)))).
Proof.
  intros H Hne. apply Z.eqb_neq in Hne.
  check_proxy_paths; reflexivity.
Qed.

Lemma check_proxy_json_raises self p w resp e :
  get w (probe_request self p) = Return resp ->
  resp_status resp = 200 ->
  resp_json resp = Raise e ->
  check_proxy self p w = handled p e.
Proof.
  intros H H200 Hjson. apply Z.eqb_eq in H200.
  check_proxy_paths; reflexivity.
Qed.

Lemma check_proxy_json_dict self p w resp d :
  get w (probe_request self p) = Return resp ->
  resp_status resp = 200 ->
  resp_json resp = Return (PyDict d) ->
  check_proxy self p w = Return (working_result p w d).
Proof.
  intros H H200 Hjson. apply Z.eqb_eq in H200.
  check_proxy_paths; reflexivity.
Qed.

Lemma check_proxy_json_not_dict self p w resp data :
  get w (probe_request self p) = Return resp ->
  resp_status resp = 200 ->
  resp_json resp = Return data ->
  (forall d, data <> PyDict d) ->
  check_proxy self p w =
    Return (failure (normalize p) FAILED
              (String.append "'" (String.append (type_name data)
                 "' object has no attribute 'get'"))).
Proof.
  intros H H200 Hjson Hnd. apply Z.eqb_eq in H200.
  check_proxy_paths; try reflexivity.
  exfalso. eapply Hnd. reflexivity.
Qed.

Lemma handled_error_returns p e :
  is_Exception e = true -> returns (handled p e).
Proof.
  unfold handled, returns. intros ->.
  destruct (is_TimeoutError e); eexists; reflexivity.
Qed.

Lemma status_value_known (s : ProxyStatus) :
  In (value s) ["working"; "failed"; "timeout"]%string.
Proof. destruct s; simpl; auto. Qed.

Lemma check_proxy_returns (self : ProxyChecker) (p : string) (w : world) :
  raises_only_errors w -> returns (check_proxy self p w).
Proof.
  intros [Hget Hjson].
  destruct (get w (probe_request self p)) as [resp|e] eqn:Eget.
  - destruct (Z.eq_dec (resp_status resp) 200) as [H200|Hne].
    + destruct (resp_json resp) as [data|e] eqn:Ejson.
      * destruct data;
          first [ erewrite check_proxy_json_dict by eauto
                | erewrite check_proxy_json_not_dict by (eauto; discriminate) ];
          eexists; reflexivity.
      * erewrite check_proxy_json_raises by eauto.
        apply handled_error_returns. eauto.
    + erewrite check_proxy_not_200 by eauto. eexists; reflexivity.
  - erewrite check_proxy_get_raises by eauto.
    apply handled_error_returns. eauto.
Qed.

(** C1: [check_proxy] raises no error: what goes on to its caller is never
    an instance of [Exception]; and whatever the probe does (a 200
    response, another response, a timeout, any other exception, that is any
    instance of [Exception]), [check_proxy] returns a result record, whose
    status is one of working, failed, timeout. *)
Theorem check_proxy_never_raises (self : ProxyChecker) (p : string) (w : world) :
  (forall e, check_proxy self p w = Raise e -> is_Exception e = false) /\
  (raises_only_errors w ->
   exists r, check_proxy self p w = Return r /\
             In (value (status r)) ["working"; "failed"; "timeout"]%string).
Proof.
  split.
  - intros e0 H. destruct (is_Exception e0) eqn:E0; [exfalso | reflexivity].
    revert H. check_proxy_paths; intros H; try discriminate H.
    all: injection H as ->; congruence.
  - intros Hw. destruct (check_proxy_returns self p w Hw) as [r Hr].
    exists r. split; [exact Hr | apply status_value_known].
Qed.

Lemma check_proxy_never_raises_witness :
  raises_only_errors Sample.world_refused /\
  exists r, check_proxy Sample.checker "1.2.3.4:8080" Sample.world_refused
              = Return r /\
            In (value (status r)) ["working"; "failed"; "timeout"]%string.
Proof.
  assert (raises_only_errors Sample.world_refused) as H.
  { split.
    - intros req e [= <-]. reflexivity.
    - intros req resp e [=]. }
  split; [exact H | exact (proj2 (check_proxy_never_raises _ _ _) H)].
Defined.

(** C2, as stated, at a proxy that answers 200 with an HTML page: the
    response is there within the timeout, with status 200, and the check is
    failed, with the decoder's message. *)
Lemma check_proxy_200_html_is_failed :
  get Sample.world_html (probe_request Sample.checker "1.2.3.4:8080")
    = Return (Response 200
        (Raise (Exc OtherException
           "Attempt to decode JSON with unexpected mimetype: text/html"))) /\
  check_proxy Sample.checker "1.2.3.4:8080" Sample.world_html
    = Return (failure "http://1.2.3.4:8080" FAILED
        "Attempt to decode JSON with unexpected mimetype: text/html") /\
  ~ (exists r, check_proxy Sample.checker "1.2.3.4:8080" Sample.world_html
                 = Return r /\ status r = WORKING).
Proof.
  split; [reflexivity|]. split; [reflexivity|].
  intros (r & Hr & Hst). vm_compute in Hr.
  injection Hr as <-. discriminate Hst.
Qed.

(** C2, amended: when the response arrives within the timeout with status
    200 and its body decodes to a JSON object, the check is working, with
    [ip_address], [country] and [city] the values under [query], [country]
    and [city] (null where the key is missing), no error, and
    [response_time] the difference of the two clock readings rounded to 2
    decimal places. *)
Theorem check_proxy_200_json_object
    (self : ProxyChecker) (p : string) (w : world)
    (resp : response) (d : list (string * pyval)) :
  get w (probe_request self p) = Return resp ->
  resp_status resp = 200 ->
  resp_json resp = Return (PyDict d) ->
  exists r, check_proxy self p w = Return r /\
    status r = WORKING /\
    ip_address r = default PyNone (dict_lookup d "query") /\
    country r = default PyNone (dict_lookup d "country") /\
    city r = default PyNone (dict_lookup d "city") /\
    (forall k, dict_lookup d k = None -> default PyNone (dict_lookup d k) = PyNone) /\
    response_time r =
      Some (PyFloat.round (PyFloat.sub (time_response w) (time_start w)) 2) /\
    error r = None.
Proof.
  intros Hget H200 Hjson.
  exists (working_result p w d).
  split; [eapply check_proxy_json_dict; eauto|].
  repeat split; try reflexivity.
  intros k ->. reflexivity.
Qed.

Lemma check_proxy_200_json_object_witness :
  exists r, check_proxy Sample.checker "1.2.3.4:8080" Sample.world_no_city
              = Return r /\
    status r = WORKING /\
    ip_address r = PyStr "1.2.3.4" /\
    country r = PyStr "US" /\
    city r = PyNone /\
    response_time r = Some (PyFloat.quotient 12 100) /\
    error r = None.
Proof.
  destruct (check_proxy_200_json_object Sample.checker "1.2.3.4:8080"
              Sample.world_no_city
              (Response 200 (Return (PyDict
                 [("query", PyStr "1.2.3.4"); ("country", PyStr "US")]%string)))
              [("query", PyStr "1.2.3.4"); ("country", PyStr "US")]%string
              eq_refl eq_refl eq_refl)
    as (r & Hr & Hst & Hip & Hco & Hci & _ & Htime & Herr).
  exists r. repeat split; assumption.
Defined.

(** C3: a response with a status other than 200 gives a failed result whose
    error is "HTTP " followed by the status code, with no response time and
    no geolocation; a timeout of the request, or of the reading of a 200
    body, gives a timeout result whose error is "Connection timeout". *)
Theorem check_proxy_failure_paths (self : ProxyChecker) (p : string) (w : world) :
  (forall resp,
     get w (probe_request self p) = Return resp ->
     resp_status resp <> 200 ->
     check_proxy self p w =
       Return {| proxy := normalize p; status := FAILED;
                 response_time := None; ip_address := PyNone;
                 country := PyNone; city := PyNone;
                 error := Some (String.append "HTTP "
                                  (Str.of_int (resp_status resp))) |}) /\
  (forall e,
     is_TimeoutError e = true ->
     get w (probe_request self p) = Raise e \/
     (exists resp, get w (probe_request self p) = Return resp /\
                   resp_status resp = 200 /\ resp_json resp = Raise e) ->
     check_proxy self p w =
       Return {| proxy := normalize p; status := TIMEOUT;
                 response_time := None; ip_address := PyNone;
                 country := PyNone; city := PyNone;
                 error := Some "Connection timeout"%string |}).
Proof.
  split.
  - intros resp Hget Hne. exact (check_proxy_not_200 _ _ _ _ Hget Hne).
  - intros e Ht [Hget | (resp & Hget & H200 & Hjson)].
    + rewrite (check_proxy_get_raises _ _ _ _ Hget). unfold handled.
      rewrite Ht. reflexivity.
    + rewrite (check_proxy_json_raises _ _ _ _ _ Hget H200 Hjson).
      unfold handled. rewrite Ht. reflexivity.
Qed.

Lemma check_proxy_failure_paths_witness :
  check_proxy Sample.checker "1.2.3.4:8080" Sample.world_403
    = Return (failure "http://1.2.3.4:8080" FAILED "HTTP 403") /\
  check_proxy Sample.checker "1.2.3.4:8080" Sample.world_timeout
    = Return (failure "http://1.2.3.4:8080" TIMEOUT "Connection timeout") /\
  check_proxy Sample.checker "1.2.3.4:8080" Sample.world_body_timeout
    = Return (failure "http://1.2.3.4:8080" TIMEOUT "Connection timeout").
Proof.
  split; [|split].
  - refine (proj1 (check_proxy_failure_paths Sample.checker "1.2.3.4:8080"
                     Sample.world_403) (Response 403 (Return PyNone)) eq_refl _).
    simpl. discriminate.
  - exact (proj2 (check_proxy_failure_paths Sample.checker "1.2.3.4:8080"
                    Sample.world_timeout) (Exc TimeoutError "") eq_refl
                 (or_introl eq_refl)).
  - refine (proj2 (check_proxy_failure_paths Sample.checker "1.2.3.4:8080"
                     Sample.world_body_timeout) (Exc TimeoutError "") eq_refl
                  (or_intror _)).
    eexists. split; [reflexivity|]. split; reflexivity.
Defined.

(** Every record [check_proxy] returns is the record of one of its four
    paths. *)
Lemma check_proxy_returns_inv self p w r :
  check_proxy self p w = Return r ->
  (exists d, r = working_result p w d) \/
  (exists s msg, r = failure (normalize p) s msg /\ s <> WORKING).
Proof.
  revert r. check_proxy_paths; intros r [= <-];
    first [ left; eexists; reflexivity
          | right; eexists _, _; split; [reflexivity | discriminate] ].
Qed.

(** C6: a specification that starts with one of the four scheme prefixes is
    left as it is, any other gets "http://" in front, once; and the [proxy]
    field of the record [check_proxy] returns is the normalised string,
    whatever the status. *)
Theorem normalize_spec (s : string) :
  ((exists p, In p schemes /\ Str.starts_with p s) -> normalize s = s) /\
  ((forall p, In p schemes -> ~ Str.starts_with p s) ->
     normalize s = String.append "http://" s) /\
  (forall self w r, check_proxy self s w = Return r -> proxy r = normalize s).
Proof.
  split; [|split].
  - intros H. apply normalize_with_scheme, startswith_any_spec, H.
  - intros H. apply normalize_without_scheme, startswith_any_false, H.
  - intros self w r Hr.
    destruct (check_proxy_returns_inv _ _ _ _ Hr)
      as [[d ->] | (st & msg & -> & _)]; reflexivity.
Qed.

Lemma normalize_spec_witness :
  normalize "socks5://user:pw@10.0.0.1:1080" = "socks5://user:pw@10.0.0.1:1080"%string /\
  normalize "10.0.0.1:3128" = "http://10.0.0.1:3128"%string /\
  proxy (failure "http://10.0.0.1:3128" TIMEOUT "Connection timeout")
    = normalize "10.0.0.1:3128".
Proof.
  split; [|split].
  - apply (proj1 (normalize_spec "socks5://user:pw@10.0.0.1:1080")).
    exists "socks5://"%string. split.
    + simpl. auto.
    + exists "user:pw@10.0.0.1:1080"%string. reflexivity.
  - apply (proj1 (proj2 (normalize_spec "10.0.0.1:3128"))).
    intros p Hin [rest Hrest].
    simpl in Hin. destruct Hin as [<-|[<-|[<-|[<-|[]]]]]; discriminate Hrest.
  - apply (proj2 (proj2 (normalize_spec "10.0.0.1:3128"))
             Sample.checker Sample.world_timeout).
    reflexivity.
Defined.

(** C7: in a record [check_proxy] returns, [response_time] is set exactly
    when the status is working, [ip_address], [country] and [city] are set
    only when it is working, and [error] is set exactly when it is not. *)
Theorem check_proxy_fields_by_status
    (self : ProxyChecker) (p : string) (w : world) (r : ProxyResult) :
  check_proxy self p w = Return r ->
  (response_time r <> None <-> status r = WORKING) /\
  (ip_address r <> PyNone -> status r = WORKING) /\
  (country r <> PyNone -> status r = WORKING) /\
  (city r <> PyNone -> status r = WORKING) /\
  (error r <> None <-> status r <> WORKING).
Proof.
  intros Hr.
  destruct (check_proxy_returns_inv _ _ _ _ Hr)
    as [[d ->] | (st & msg & -> & Hst)]; simpl.
  - repeat split; try reflexivity; try discriminate; congruence.
  - repeat split; try congruence; try discriminate.
Qed.

Lemma check_proxy_fields_by_status_witness :
  let r := working_result "1.2.3.4:8080" Sample.world_ok
             [("query", PyStr "1.2.3.4"); ("country", PyStr "US");
              ("city", PyStr "Ashburn")]%string in
  check_proxy Sample.checker "1.2.3.4:8080" Sample.world_ok = Return r /\
  (response_time r <> None <-> status r = WORKING) /\
  (ip_address r <> PyNone -> status r = WORKING) /\
  (country r <> PyNone -> status r = WORKING) /\
  (city r <> PyNone -> status r = WORKING) /\
  (error r <> None <-> status r <> WORKING).
Proof.
  intros r. split; [reflexivity|].
  apply (check_proxy_fields_by_status Sample.checker "1.2.3.4:8080"
           Sample.world_ok r).
  reflexivity.
Defined.

(** C9: the result of normalisation starts with one of the four scheme
    prefixes, so normalising it again changes nothing. *)
Theorem normalize_idempotent (s : string) :
  (exists p, In p schemes /\ Str.starts_with p (normalize s)) /\
  normalize (normalize s) = normalize s.
Proof.
  split.
  - apply startswith_any_spec, normalize_has_scheme.
  - apply normalize_with_scheme, normalize_has_scheme.
Qed.

(** C10: the scheme test is a literal, case-sensitive prefix test: a string
    that does not begin with one of the four lower-case prefixes gets
    "http://" in front; so do the empty string and a string with the scheme
    in upper case. *)
Theorem normalize_case_sensitive (s : string) :
  (forall p, In p schemes -> ~ Str.starts_with p s) ->
  normalize s = String.append "http://" s /\
  normalize "" = "http://"%string /\
  normalize "HTTP://host:port" = "http://HTTP://host:port"%string.
Proof.
  intros H. split; [|split; reflexivity].
  apply normalize_without_scheme, startswith_any_false, H.
Qed.

Lemma normalize_case_sensitive_witness :
  normalize "Socks5://host:1080" = "http://Socks5://host:1080"%string /\
  normalize "" = "http://"%string /\
  normalize "HTTP://host:port" = "http://HTTP://host:port"%string.
Proof.
  apply (normalize_case_sensitive "Socks5://host:1080").
  intros p Hin [rest Hrest].
  simpl in Hin. destruct Hin as [<-|[<-|[<-|[<-|[]]]]]; discriminate Hrest.
Defined.

(** ** The summary of a batch *)

Lemma fold_left_add_from (xs : list Z) (a : Z) :
  fold_left Z.add xs a = a + Endpoint.py_sum xs.
Proof.
  unfold Endpoint.py_sum. revert a.
  induction xs as [|x xs IH]; intros a; cbn [fold_left]; [lia|].
  rewrite (IH (a + x)), (IH (0 + x)). lia.
Qed.

Lemma count_cons (st : ProxyStatus) (r : ProxyResult) (rs : list ProxyResult) :
  Endpoint.count st (r :: rs) =
    (if decide (status r = st) then 1 else 0) + Endpoint.count st rs.
Proof.
  unfold Endpoint.count. rewrite filter_cons.
  destruct (decide (status r = st)); simpl length; lia.
Qed.

Lemma working_sum_is_count (results : list ProxyResult) :
  Endpoint.py_sum
    (flat_map (fun r => if ProxyStatus_eqb (status r) WORKING then [1] else [])
       results)
  = Endpoint.count WORKING results.
Proof.
  induction results as [|r rs IH]; [reflexivity|].
  rewrite count_cons, <- IH. simpl flat_map.
  unfold Endpoint.py_sum at 1. rewrite fold_left_app, fold_left_add_from.
  destruct (status r); simpl; lia.
Qed.

Lemma count_partition (results : list ProxyResult) :
  Endpoint.count WORKING results + Endpoint.count FAILED results
    + Endpoint.count TIMEOUT results
  = Z.of_nat (length results).
Proof.
  induction results as [|r rs IH]; [reflexivity|].
  rewrite !count_cons. simpl length.
  destruct (status r); simpl; lia.
Qed.

Lemma count_nonneg (st : ProxyStatus) (results : list ProxyResult) :
  0 <= Endpoint.count st results.
Proof. unfold Endpoint.count. lia. Qed.

Lemma truediv_returns (a b : Z) :
  0 <= a <= b -> 0 < b ->
  Endpoint.truediv a b = Return (PyFloat.quotient a b).
Proof.
  intros [Ha Hab] Hb. unfold Endpoint.truediv.
  replace (b =? 0) with false by (symmetry; apply Z.eqb_neq; lia).
  assert (PyFloat.is_finite (PyFloat.quotient a b)) as Hfin.
  { unfold PyFloat.quotient.
    destruct a as [|pa|pa]; destruct b as [|pb|pb]; try lia; simpl PyFloat.exact.
    - exact I.
    - apply SFdiv_le_finite. lia. }
  destruct (PyFloat.quotient a b); simpl in Hfin; try reflexivity; contradiction.
Qed.

(** ** The batch scheduler *)

Lemma weight_insert (f : Batch.task -> nat) (l : list Batch.task)
    (i : nat) (x y : Batch.task) :
  l !! i = Some x ->
  (Batch.weight f (<[i := y]> l) + f x = Batch.weight f l + f y)%nat.
Proof.
  unfold Batch.weight. revert i.
  induction l as [|t l IH]; intros [|i] H; simplify_eq/=; [lia|].
  specialize (IH i H). lia.
Qed.

Lemma weight_replicate_waiting (n : nat) :
  Batch.weight Batch.is_in_flight (replicate n Batch.Waiting) = 0%nat /\
  Batch.weight Batch.pending_steps (replicate n Batch.Waiting) = (2 * n)%nat.
Proof.
  unfold Batch.weight. rewrite !fmap_replicate, !sum_list_replicate.
  simpl. split; lia.
Qed.

Lemma fmap_Return_inj {A} (xs ys : list A) :
  Return <$> xs = Return <$> ys -> xs = ys.
Proof.
  revert ys. induction xs as [|x xs IH]; intros [|y ys] H; simplify_eq/=;
    [reflexivity|]. f_equal. apply IH. assumption.
Qed.

Section BatchRun.

Variable self : ProxyChecker.
Variable proxies : list string.
Variable max_concurrent : Z.
Variable worlds : nat -> world.

Abbreviation step := (Batch.step self proxies worlds).

Abbreviation invariant :=
  (Batch.invariant self proxies max_concurrent worlds).

Lemma invariant_init (s0 : Batch.state) :
  Batch.init proxies max_concurrent = Return s0 -> invariant s0.
Proof.
  unfold Batch.init. destruct (Z.ltb_spec max_concurrent 0); [discriminate|].
  intros [= <-]. split; simpl.
  - apply length_replicate.
  - unfold Batch.in_flight. simpl.
    rewrite (proj1 (weight_replicate_waiting _)). lia.
  - assumption.
  - intros i o Hi. apply lookup_replicate in Hi as [? _]. discriminate.
Qed.

Lemma invariant_step (s s' : Batch.state) :
  invariant s -> step s s' -> invariant s'.
Proof.
  intros [Hlen Hsem Hnn Hfin] Hstep.
  destruct Hstep as [i s Hi Hpos | i p s Hi Hp]; split; simpl.
  - rewrite length_insert. exact Hlen.
  - pose proof (weight_insert Batch.is_in_flight _ i _ Batch.InFlight Hi) as Hw.
    unfold Batch.in_flight in *. simpl in *. lia.
  - lia.
  - intros j o Hj. destruct (decide (i = j)) as [->|Hne].
    + rewrite list_lookup_insert_eq in Hj by (eapply lookup_lt_Some; eauto).
      discriminate.
    + rewrite list_lookup_insert_ne in Hj by assumption. eauto.
  - rewrite length_insert. exact Hlen.
  - pose proof (weight_insert Batch.is_in_flight _ i _
                  (Batch.Finished (check_proxy self p (worlds i))) Hi) as Hw.
    unfold Batch.in_flight in *. simpl in *. lia.
  - lia.
  - intros j o Hj. destruct (decide (i = j)) as [->|Hne].
    + rewrite list_lookup_insert_eq in Hj by (eapply lookup_lt_Some; eauto).
      injection Hj as <-. eauto.
    + rewrite list_lookup_insert_ne in Hj by assumption. eauto.
Qed.

Lemma invariant_rtc (s s' : Batch.state) :
  invariant s -> rtc step s s' -> invariant s'.
Proof. induction 2; eauto using invariant_step. Qed.

Lemma invariant_reachable (s : Batch.state) :
  Batch.reachable self proxies max_concurrent worlds s -> invariant s.
Proof.
  intros (s0 & Hinit & Hrun).
  eapply invariant_rtc; [apply invariant_init|]; eassumption.
Qed.

(** C8: in every state of a batch run, the number of checks inside the
    semaphore, where the network I/O of [check_proxy] happens, is at most
    [max_concurrent]: the counter of the semaphore is [max_concurrent] less
    the number of checks in flight and never negative; a check enters only
    by taking a unit while the counter is positive, and a check that ends,
    with whatever result or exception, gives its unit back. *)
Theorem in_flight_bounded (s : Batch.state) :
  Batch.reachable self proxies max_concurrent worlds s ->
  0 <= Batch.in_flight s <= max_concurrent /\
  Batch.sem_value s = max_concurrent - Batch.in_flight s /\
  (forall s', step s s' ->
     (0 < Batch.sem_value s /\
      Batch.sem_value s' = Batch.sem_value s - 1 /\
      Batch.in_flight s' = Batch.in_flight s + 1) \/
     (Batch.sem_value s' = Batch.sem_value s + 1 /\
      Batch.in_flight s' = Batch.in_flight s - 1)) /\
  (forall i p,
     Batch.tasks s !! i = Some Batch.InFlight -> proxies !! i = Some p ->
     exists s', step s s' /\
       Batch.sem_value s' = Batch.sem_value s + 1 /\
       Batch.tasks s' !! i
         = Some (Batch.Finished (check_proxy self p (worlds i)))).
Proof.
  intros Hreach. pose proof (invariant_reachable s Hreach) as Hinv.
  destruct Hinv as [Hlen Hsem Hnn Hfin].
  assert (0 <= Batch.in_flight s) by (unfold Batch.in_flight; lia).
  split; [lia|]. split; [lia|]. split.
  - intros s' Hstep.
    destruct Hstep as [i s Hi Hpos | i p s Hi Hp]; simpl.
    + left.
      pose proof (weight_insert Batch.is_in_flight _ i _ Batch.InFlight Hi) as Hw.
      unfold Batch.in_flight in *. simpl in *. lia.
    + right.
      pose proof (weight_insert Batch.is_in_flight _ i _
                    (Batch.Finished (check_proxy self p (worlds i))) Hi) as Hw.
      unfold Batch.in_flight in *. simpl in *. lia.
  - intros i p Hi Hp. eexists. split; [eapply Batch.step_release; eauto|].
    simpl. split; [reflexivity|].
    apply list_lookup_insert_eq. eapply lookup_lt_Some; eauto.
Qed.

(** *** Every schedule ends *)

Abbreviation remaining s := (Batch.weight Batch.pending_steps (Batch.tasks s)).

Lemma step_remaining (s s' : Batch.state) :
  step s s' -> remaining s = S (remaining s').
Proof.
  intros [i s0 Hi Hpos | i p s0 Hi Hp]; simpl.
  - pose proof (weight_insert Batch.pending_steps _ i _ Batch.InFlight Hi).
    simpl in *. lia.
  - pose proof (weight_insert Batch.pending_steps _ i _
                  (Batch.Finished (check_proxy self p (worlds i))) Hi).
    simpl in *. lia.
Qed.

Lemma nsteps_remaining (n : nat) (s s' : Batch.state) :
  nsteps step n s s' -> remaining s = (n + remaining s')%nat.
Proof.
  induction 1 as [|n x y z Hxy _ IH]; [reflexivity|].
  rewrite (step_remaining _ _ Hxy), IH. lia.
Qed.

(** Some task is in flight, or none is and some task waits, or all are
    done. *)
Lemma tasks_cases (l : list Batch.task) :
  (exists i, l !! i = Some Batch.InFlight) \/
  (Batch.weight Batch.is_in_flight l = 0%nat /\
   ((exists i, l !! i = Some Batch.Waiting) \/
    Batch.weight Batch.pending_steps l = 0%nat)).
Proof.
  induction l as [|t l IH].
  - right. split; [reflexivity|]. right. reflexivity.
  - destruct t as [| |o].
    + destruct IH as [[i Hi] | [H0 _]].
      * left. exists (S i). exact Hi.
      * right. split; [exact H0|]. left. exists 0%nat. reflexivity.
    + left. exists 0%nat. reflexivity.
    + destruct IH as [[i Hi] | [H0 [[i Hi] | Hdone]]].
      * left. exists (S i). exact Hi.
      * right. split; [exact H0|]. left. exists (S i). exact Hi.
      * right. split; [exact H0|]. right. exact Hdone.
Qed.

Lemma progress (s : Batch.state) :
  1 <= max_concurrent -> invariant s ->
  (exists s', step s s') \/ remaining s = 0%nat.
Proof.
  intros Hmax [Hlen Hsem Hnn Hfin].
  destruct (tasks_cases (Batch.tasks s)) as [[i Hi] | [H0 [[i Hi] | Hdone]]].
  - left.
    destruct (lookup_lt_is_Some_2 proxies i) as [p Hp].
    { rewrite <- Hlen. eapply lookup_lt_Some; eauto. }
    eexists. eapply Batch.step_release; eauto.
  - left. eexists. eapply Batch.step_acquire; eauto.
    unfold Batch.in_flight in Hsem. lia.
  - right. exact Hdone.
Qed.

Lemma runs_to_completion (s : Batch.state) :
  1 <= max_concurrent -> invariant s ->
  exists s', rtc step s s' /\ remaining s' = 0%nat.
Proof.
  intros Hmax. remember (remaining s) as n eqn:Hn. revert s Hn.
  induction n as [|n IH]; intros s Hn Hinv.
  - exists s. split; [apply rtc_refl | congruence].
  - destruct (progress s Hmax Hinv) as [[s1 Hstep] | Hdone]; [|congruence].
    pose proof (step_remaining _ _ Hstep) as Hrem.
    destruct (IH s1) as (s' & Hrun & Hs'); [lia | eauto using invariant_step |].
    exists s'. split; [eapply rtc_l; eauto | exact Hs'].
Qed.

(** *** What [gather] hands back *)

Abbreviation outcomes := (Batch.outcomes self proxies worlds).

Lemma remaining_zero_finished (l : list Batch.task) (i : nat) (t : Batch.task) :
  Batch.weight Batch.pending_steps l = 0%nat ->
  l !! i = Some t -> exists o, t = Batch.Finished o.
Proof.
  unfold Batch.weight. revert i.
  induction l as [|t' l IH]; intros [|i] H0 Hi; simplify_eq/=.
  - destruct t; simpl in H0; try lia. eauto.
  - apply (IH i); [lia | assumption].
Qed.

Lemma finished_tasks (s : Batch.state) :
  invariant s -> remaining s = 0%nat ->
  Batch.tasks s = Batch.Finished <$> outcomes.
Proof.
  intros [Hlen Hsem Hnn Hfin] Hdone. apply list_eq. intros i.
  unfold Batch.outcomes. rewrite list_lookup_fmap, list_lookup_imap.
  destruct (Batch.tasks s !! i) as [t|] eqn:Hi.
  - destruct (remaining_zero_finished _ _ _ Hdone Hi) as [o ->].
    destruct (Hfin _ _ Hi) as (p & Hp & ->). rewrite Hp. reflexivity.
  - apply lookup_ge_None in Hi. rewrite Hlen in Hi.
    apply lookup_ge_None in Hi. rewrite Hi. reflexivity.
Qed.

Lemma all_return (os : list (outcome ProxyResult)) :
  Forall returns os -> exists rs, os = Return <$> rs.
Proof.
  induction 1 as [|o os [r ->] _ [rs ->]].
  - exists []. reflexivity.
  - exists (r :: rs). reflexivity.
Qed.

Lemma outcomes_return :
  (forall i, raises_only_errors (worlds i)) ->
  exists rs, outcomes = Return <$> rs.
Proof.
  intros Hw. apply all_return, Forall_lookup. intros i o Hi.
  unfold Batch.outcomes in Hi. rewrite list_lookup_imap in Hi.
  destruct (proxies !! i) as [p|]; simplify_eq/=.
  apply check_proxy_returns, Hw.
Qed.

Lemma first_raised_none (ts : list Batch.task) (order : list nat) :
  (forall i e, ts !! i <> Some (Batch.Finished (Raise e))) ->
  Batch.first_raised ts order = None.
Proof.
  intros H. induction order as [|i order IH]; [reflexivity|]. simpl.
  destruct (ts !! i) as [[| |[r|e]]|] eqn:Hi; try exact IH.
  exfalso. exact (H i e Hi).
Qed.

Lemma no_task_raised (s : Batch.state) (rs : list ProxyResult) :
  invariant s -> outcomes = Return <$> rs ->
  forall i e, Batch.tasks s !! i <> Some (Batch.Finished (Raise e)).
Proof.
  intros [_ _ _ Hfin] Hrs i e Hi.
  destruct (Hfin _ _ Hi) as (p & Hp & He).
  assert (outcomes !! i = Some (Raise e)) as Ho.
  { unfold Batch.outcomes. rewrite list_lookup_imap, Hp. simpl. congruence. }
  rewrite Hrs, list_lookup_fmap in Ho.
  destruct (rs !! i); discriminate.
Qed.

Lemma mapM_returned (rs : list ProxyResult) :
  mapM Batch.returned (Batch.Finished <$> (Return <$> rs)) = Some rs.
Proof.
  apply mapM_Some. induction rs; constructor; auto.
Qed.

Lemma gather_finished (s : Batch.state) (rs : list ProxyResult) :
  invariant s -> outcomes = Return <$> rs -> remaining s = 0%nat ->
  Batch.gather s = Some (Return rs).
Proof.
  intros Hinv Hrs Hdone. unfold Batch.gather.
  rewrite (first_raised_none _ _ (no_task_raised s rs Hinv Hrs)).
  rewrite (finished_tasks s Hinv Hdone), Hrs, mapM_returned. reflexivity.
Qed.

Lemma gather_unique (s : Batch.state) (rs : list ProxyResult)
    (out : outcome (list ProxyResult)) :
  invariant s -> outcomes = Return <$> rs ->
  Batch.gather s = Some out -> out = Return rs.
Proof.
  intros Hinv Hrs. unfold Batch.gather.
  rewrite (first_raised_none _ _ (no_task_raised s rs Hinv Hrs)).
  destruct (mapM Batch.returned (Batch.tasks s)) as [rs'|] eqn:Hm;
    [|discriminate].
  intros [= <-]. f_equal.
  apply mapM_Some in Hm. destruct Hinv as [Hlen _ _ Hfin].
  assert (Return <$> rs' = outcomes) as Heq.
  { apply list_eq. intros i. unfold Batch.outcomes.
    rewrite list_lookup_fmap, list_lookup_imap.
    pose proof (Forall2_length _ _ _ Hm) as Hlen'.
    destruct (rs' !! i) as [r|] eqn:Hr.
    - destruct (Forall2_lookup_r _ _ _ _ _ Hm Hr) as (t & Ht & Hret).
      destruct t as [| |[r'|e]]; simplify_eq/=.
      destruct (Hfin _ _ Ht) as (p & Hp & Ho). rewrite Hp. simpl. congruence.
    - apply lookup_ge_None in Hr. rewrite <- Hlen', Hlen in Hr.
      apply lookup_ge_None in Hr. rewrite Hr. reflexivity. }
  rewrite Hrs in Heq. apply fmap_Return_inj, Heq.
Qed.

Lemma init_returns :
  0 <= max_concurrent ->
  Batch.init proxies max_concurrent =
    Return {| Batch.sem_value := max_concurrent;
              Batch.tasks := replicate (length proxies) Batch.Waiting;
              Batch.completed := [] |}.
Proof.
  intros H. unfold Batch.init.
  destruct (Z.ltb_spec max_concurrent 0); [lia | reflexivity].
Qed.

(** C4: for a list of N proxies, [check_proxies] returns a list of exactly N
    results, the i-th the result of checking the i-th proxy, whatever the
    order in which the checks are admitted and end: every schedule ends,
    from every state of a run the return is reached, and nothing else is
    ever returned or raised.  The empty list gives the empty list. *)
Theorem check_proxies_in_input_order :
  1 <= max_concurrent ->
  (forall i, raises_only_errors (worlds i)) ->
  exists rs : list ProxyResult,
    length rs = length proxies /\
    (forall i p, proxies !! i = Some p ->
       exists r, rs !! i = Some r /\
                 check_proxy self p (worlds i) = Return r) /\
    (proxies = [] -> rs = []) /\
    Batch.check_proxies self proxies max_concurrent worlds (Return rs) /\
    (forall out,
       Batch.check_proxies self proxies max_concurrent worlds out ->
       out = Return rs) /\
    (forall s,
       Batch.reachable self proxies max_concurrent worlds s ->
       exists s', rtc step s s' /\ Batch.gather s' = Some (Return rs)) /\
    (forall n s0 s,
       Batch.init proxies max_concurrent = Return s0 ->
       nsteps step n s0 s -> (n <= 2 * length proxies)%nat).
Proof.
  intros Hmax Hworlds.
  destruct (outcomes_return Hworlds) as [rs Hrs].
  pose proof (init_returns ltac:(lia)) as Hinit.
  pose proof (invariant_init _ Hinit) as Hinv0.
  assert (length rs = length proxies) as Hlen.
  { rewrite <- (length_fmap Return rs), <- Hrs.
    unfold Batch.outcomes. apply length_imap. }
  assert (forall s, Batch.reachable self proxies max_concurrent worlds s ->
            exists s', rtc step s s' /\ Batch.gather s' = Some (Return rs))
    as Hcomplete.
  { intros s Hreach. pose proof (invariant_reachable s Hreach) as Hinv.
    destruct (runs_to_completion s Hmax Hinv) as (s' & Hrun & Hdone).
    exists s'. split; [exact Hrun|].
    apply gather_finished; [eapply invariant_rtc; eauto | exact Hrs | exact Hdone]. }
  exists rs. split; [exact Hlen|]. split; [|split; [|split; [|split; [|split]]]].
  - intros i p Hp.
    assert (outcomes !! i = Some (check_proxy self p (worlds i))) as Ho.
    { unfold Batch.outcomes. rewrite list_lookup_imap, Hp. reflexivity. }
    rewrite Hrs, list_lookup_fmap in Ho.
    destruct (rs !! i) as [r|]; simplify_eq/=. eauto.
  - intros ->. destruct rs; [reflexivity | discriminate].
  - unfold Batch.check_proxies. rewrite Hinit.
    destruct (Hcomplete _ (ex_intro _ _ (conj Hinit (rtc_refl _ _))))
      as (s' & Hrun & Hg).
    exists s'. split; assumption.
  - intros out. unfold Batch.check_proxies. rewrite Hinit.
    intros (s & Hrun & Hg).
    eapply gather_unique; [eapply invariant_rtc; eauto | exact Hrs | exact Hg].
  - exact Hcomplete.
  - intros n s0 s Hs0 Hn. rewrite Hinit in Hs0. injection Hs0 as <-.
    pose proof (nsteps_remaining _ _ _ Hn) as Hrem. simpl in Hrem.
    rewrite (proj2 (weight_replicate_waiting _)) in Hrem. lia.
Qed.

End BatchRun.

(** Two proxies under [max_concurrent = 1]: the first check has timed out
    and given its unit back, the second holds it. *)
Lemma in_flight_bounded_witness :
  let s := {| Batch.sem_value := 0;
              Batch.tasks :=
                [Batch.Finished
                   (Return (failure "http://a:1" TIMEOUT "Connection timeout"));
                 Batch.InFlight];
              Batch.completed := [0%nat] |} in
  Batch.reachable Sample.checker ["a:1"; "b:2"]%string 1
    (fun _ => Sample.world_timeout) s /\
  0 <= Batch.in_flight s <= 1 /\
  Batch.sem_value s = 1 - Batch.in_flight s.
Proof.
  intros s.
  assert (Batch.reachable Sample.checker ["a:1"; "b:2"]%string 1
            (fun _ => Sample.world_timeout) s) as Hreach.
  { eexists. split; [reflexivity|].
    eapply rtc_l;
      [eapply (Batch.step_acquire _ _ _ 0%nat); reflexivity|].
    eapply rtc_l;
      [eapply (Batch.step_release _ _ _ 0%nat); reflexivity|].
    eapply rtc_l;
      [eapply (Batch.step_acquire _ _ _ 1%nat); reflexivity|].
    apply rtc_refl. }
  split; [exact Hreach|].
  destruct (in_flight_bounded _ _ _ _ s Hreach) as (Hb & Heq & _).
  split; assumption.
Defined.

Lemma batch_worlds_raise_only_errors (i : nat) :
  raises_only_errors (Sample.batch_worlds i).
Proof.
  destruct i as [|[|i]]; split; simpl; intros; simplify_eq/=; reflexivity.
Qed.

Lemma check_proxies_in_input_order_witness :
  Batch.check_proxies Sample.checker Sample.batch 2 Sample.batch_worlds
    (Return Sample.batch_results).
Proof.
  destruct (check_proxies_in_input_order Sample.checker Sample.batch 2
              Sample.batch_worlds ltac:(lia) batch_worlds_raise_only_errors)
    as (rs & Hlen & Hith & _ & Hret & _).
  assert (rs = Sample.batch_results) as <-; [|exact Hret].
  destruct rs as [|r0 [|r1 [|r2 [|r3 rs]]]]; try discriminate Hlen.
  destruct (Hith 0%nat _ eq_refl) as (x0 & H0 & C0).
  destruct (Hith 1%nat _ eq_refl) as (x1 & H1 & C1).
  destruct (Hith 2%nat _ eq_refl) as (x2 & H2 & C2).
  injection H0 as <-. injection H1 as <-. injection H2 as <-.
  change (Return (working_result "a:1" Sample.world_ok
            [("query", PyStr "1.2.3.4"); ("country", PyStr "US");
             ("city", PyStr "Ashburn")]%string) = Return r0) in C0.
  change (Return (failure "http://b:2" FAILED "HTTP 403") = Return r1) in C1.
  change (Return (failure "http://c:3" TIMEOUT "Connection timeout")
          = Return r2) in C2.
  injection C0 as <-. injection C1 as <-. injection C2 as <-.
  reflexivity.
Defined.

(** The same batch under two schedules: the checks end in the order 0, 1, 2
    in one and 2, 1, 0 in the other, and [gather] has the same list. *)
Lemma gather_in_either_order :
  exists s s',
    Batch.reachable Sample.checker Sample.batch 3 Sample.batch_worlds s /\
    Batch.reachable Sample.checker Sample.batch 3 Sample.batch_worlds s' /\
    Batch.completed s = [0; 1; 2]%nat /\
    Batch.completed s' = [2; 1; 0]%nat /\
    Batch.gather s = Some (Return Sample.batch_results) /\
    Batch.gather s' = Some (Return Sample.batch_results).
Proof.
  eexists _, _. split; [|split].
  - eexists. split; [reflexivity|].
    eapply rtc_l; [eapply (Batch.step_acquire _ _ _ 0%nat); reflexivity|].
    eapply rtc_l; [eapply (Batch.step_acquire _ _ _ 1%nat); reflexivity|].
    eapply rtc_l; [eapply (Batch.step_acquire _ _ _ 2%nat); reflexivity|].
    eapply rtc_l; [eapply (Batch.step_release _ _ _ 0%nat); reflexivity|].
    eapply rtc_l; [eapply (Batch.step_release _ _ _ 1%nat); reflexivity|].
    eapply rtc_l; [eapply (Batch.step_release _ _ _ 2%nat); reflexivity|].
    apply rtc_refl.
  - eexists. split; [reflexivity|].
    eapply rtc_l; [eapply (Batch.step_acquire _ _ _ 2%nat); reflexivity|].
    eapply rtc_l; [eapply (Batch.step_acquire _ _ _ 0%nat); reflexivity|].
    eapply rtc_l; [eapply (Batch.step_acquire _ _ _ 1%nat); reflexivity|].
    eapply rtc_l; [eapply (Batch.step_release _ _ _ 2%nat); reflexivity|].
    eapply rtc_l; [eapply (Batch.step_release _ _ _ 1%nat); reflexivity|].
    eapply rtc_l; [eapply (Batch.step_release _ _ _ 0%nat); reflexivity|].
    apply rtc_refl.
  - repeat split; reflexivity.
Qed.

(** ** Outside the handlers *)

(** A cancellation is not an [Exception]: neither clause takes it, and it
    goes on to the caller of [check_proxy]. *)
Lemma check_proxy_cancelled :
  check_proxy Sample.checker "1.2.3.4:8080" Sample.world_cancelled
    = Raise (Exc BaseOnly "").
Proof. reflexivity. Qed.

(** A 200 body that is JSON but not an object fails on [data.get]. *)
Lemma check_proxy_json_array :
  check_proxy Sample.checker "1.2.3.4:8080" Sample.world_json_array
    = Return (failure "http://1.2.3.4:8080" FAILED
                "'list' object has no attribute 'get'").
Proof. reflexivity. Qed.

(** A negative [max_concurrent] is refused by the semaphore, and a batch
    under [max_concurrent = 0] never starts a check. *)
Lemma check_proxies_negative_limit (self : ProxyChecker)
    (proxies : list string) (worlds : nat -> world)
    (out : outcome (list ProxyResult)) :
  Batch.check_proxies self proxies (-1) worlds out ->
  out = Raise (Exc OtherException "Semaphore initial value must be >= 0").
Proof. intros H. exact H. Qed.

Lemma check_proxies_zero_limit_stuck (s' : Batch.state) :
  ~ Batch.step Sample.checker Sample.batch Sample.batch_worlds
      {| Batch.sem_value := 0;
         Batch.tasks := replicate 3 Batch.Waiting;
         Batch.completed := [] |} s'.
Proof.
  inversion 1 as [i s Hi Hpos | i p s Hi Hp]; subst; simpl in *.
  - lia.
  - destruct i as [|[|[|i]]]; discriminate Hi.
Qed.

(** * Further properties of the code *)

(** ** The checker engine *)

(** X1 (proxy_checker.py, 98-103): an exception of the request or of the
    decoding of a 200 body that is an [Exception] but no timeout gives a
    failed result whose error is [str(e)], with no response time and no
    geolocation. *)
Theorem check_proxy_other_exception
    (self : ProxyChecker) (p : string) (w : world) (e : exc) :
  is_Exception e = true ->
  is_TimeoutError e = false ->
  get w (probe_request self p) = Raise e \/
  (exists resp, get w (probe_request self p) = Return resp /\
                resp_status resp = 200 /\ resp_json resp = Raise e) ->
  check_proxy self p w =
    Return {| proxy := normalize p; status := FAILED;
              response_time := None; ip_address := PyNone;
              country := PyNone; city := PyNone;
              error := Some (exc_str e) |}.
Proof.
  intros Hexc Htime [Hget | (resp & Hget & H200 & Hjson)].
  - rewrite (check_proxy_get_raises _ _ _ _ Hget). unfold handled.
    rewrite Htime, Hexc. reflexivity.
  - rewrite (check_proxy_json_raises _ _ _ _ _ Hget H200 Hjson).
    unfold handled. rewrite Htime, Hexc. reflexivity.
Qed.

Lemma check_proxy_other_exception_witness :
  check_proxy Sample.checker "1.2.3.4:8080" Sample.world_refused
    = Return (failure "http://1.2.3.4:8080" FAILED
                "Cannot connect to host 1.2.3.4:8080") /\
  check_proxy Sample.checker "1.2.3.4:8080" Sample.world_html
    = Return (failure "http://1.2.3.4:8080" FAILED
                "Attempt to decode JSON with unexpected mimetype: text/html").
Proof.
  split.
  - exact (check_proxy_other_exception Sample.checker "1.2.3.4:8080"
             Sample.world_refused
             (Exc OtherException "Cannot connect to host 1.2.3.4:8080")
             eq_refl eq_refl (or_introl eq_refl)).
  - refine (check_proxy_other_exception Sample.checker "1.2.3.4:8080"
              Sample.world_html
              (Exc OtherException
                 "Attempt to decode JSON with unexpected mimetype: text/html")
              eq_refl eq_refl (or_intror _)).
    eexists. split; [reflexivity|]. split; reflexivity.
Defined.

(** X2 (proxy_checker.py, 74-84 and 98-103): a 200 response whose body
    decodes to JSON that is not an object (null, a boolean, a number, a
    string, an array) fails on [data.get]: the result is failed, and its
    error names the type that has no [get]. *)
Theorem check_proxy_200_not_an_object
    (self : ProxyChecker) (p : string) (w : world)
    (resp : response) (data : pyval) :
  get w (probe_request self p) = Return resp ->
  resp_status resp = 200 ->
  resp_json resp = Return data ->
  (forall d, data <> PyDict d) ->
  check_proxy self p w =
    Return {| proxy := normalize p; status := FAILED;
              response_time := None; ip_address := PyNone;
              country := PyNone; city := PyNone;
              error := Some (String.append "'"
                               (String.append (type_name data)
                                  "' object has no attribute 'get'")) |}.
Proof.
  intros Hget H200 Hjson Hnd.
  exact (check_proxy_json_not_dict _ _ _ _ _ Hget H200 Hjson Hnd).
Qed.

Lemma check_proxy_200_not_an_object_witness :
  check_proxy Sample.checker "1.2.3.4:8080"
    (Sample.answers (Return (Response 200 (Return PyNone))))
  = Return (failure "http://1.2.3.4:8080" FAILED
              "'NoneType' object has no attribute 'get'").
Proof.
  refine (check_proxy_200_not_an_object Sample.checker "1.2.3.4:8080"
            (Sample.answers (Return (Response 200 (Return PyNone))))
            (Response 200 (Return PyNone)) PyNone eq_refl eq_refl eq_refl _).
  discriminate.
Defined.

(** X3 (proxy_checker.py, 62-103): [check_proxy] raises exactly when the
    request, or the decoding of a 200 body, raises something that is not an
    [Exception] (a cancellation), and then it raises that very exception:
    such a signal is never turned into a result, and nothing else is ever
    raised. *)
Theorem check_proxy_raises_iff
    (self : ProxyChecker) (p : string) (w : world) (e : exc) :
  check_proxy self p w = Raise e <->
  is_Exception e = false /\
  (get w (probe_request self p) = Raise e \/
   exists resp, get w (probe_request self p) = Return resp /\
                resp_status resp = 200 /\ resp_json resp = Raise e).
Proof.
  assert (is_Exception e = false -> is_TimeoutError e = false) as Hkind.
  { unfold is_Exception, is_TimeoutError. destruct (exc_kind e); congruence. }
  split.
  - intros H.
    destruct (get w (probe_request self p)) as [resp|e'] eqn:Hget.
    + destruct (Z.eq_dec (resp_status resp) 200) as [H200|Hne].
      * destruct (resp_json resp) as [data|e'] eqn:Hjson.
        -- exfalso. destruct data;
             first [ erewrite check_proxy_json_dict in H by eauto
                   | erewrite check_proxy_json_not_dict in H
                       by (eauto; discriminate) ];
             discriminate H.
        -- rewrite (check_proxy_json_raises _ _ _ _ _ Hget H200 Hjson) in H.
           unfold handled in H.
           destruct (is_TimeoutError e'); [discriminate|].
           destruct (is_Exception e') eqn:He'; [discriminate|].
           injection H as ->. split; [exact He'|]. right. eauto.
      * rewrite (check_proxy_not_200 _ _ _ _ Hget Hne) in H. discriminate.
    + rewrite (check_proxy_get_raises _ _ _ _ Hget) in H.
      unfold handled in H.
      destruct (is_TimeoutError e'); [discriminate|].
      destruct (is_Exception e') eqn:He'; [discriminate|].
      injection H as ->. split; [exact He'|]. left. reflexivity.
  - intros [He [Hget | (resp & Hget & H200 & Hjson)]].
    + rewrite (check_proxy_get_raises _ _ _ _ Hget). unfold handled.
      rewrite (Hkind He), He. reflexivity.
    + rewrite (check_proxy_json_raises _ _ _ _ _ Hget H200 Hjson).
      unfold handled. rewrite (Hkind He), He. reflexivity.
Qed.

Lemma check_proxy_raises_iff_witness :
  check_proxy Sample.checker "1.2.3.4:8080" Sample.world_cancelled
    = Raise (Exc BaseOnly "").
Proof.
  apply (proj2 (check_proxy_raises_iff Sample.checker "1.2.3.4:8080"
                  Sample.world_cancelled (Exc BaseOnly ""))).
  split; [reflexivity | left; reflexivity].
Defined.

(** X4 (proxy_checker.py, 57-58 and 63-68): two specifications with the
    same normal form are checked alike; so a bare [host:port] and the same
    with "http://" in front give the same outcome, and checking a
    normalised specification is checking the original. *)
Theorem check_proxy_up_to_normalize
    (self : ProxyChecker) (p q : string) (w : world) :
  normalize p = normalize q ->
  check_proxy self p w = check_proxy self q w /\
  check_proxy self (normalize p) w = check_proxy self p w /\
  (Str.startswith_any p schemes = false ->
   check_proxy self (String.append "http://" p) w = check_proxy self p w).
Proof.
  intros Hpq.
  assert (forall a b, normalize a = normalize b ->
                      check_proxy self a w = check_proxy self b w) as Heq.
  { intros a b Hab. unfold check_proxy. rewrite Hab. reflexivity. }
  split; [exact (Heq _ _ Hpq)|]. split.
  - apply Heq, normalize_with_scheme, normalize_has_scheme.
  - intros Hp. rewrite <- (normalize_without_scheme p Hp).
    apply Heq, normalize_with_scheme, normalize_has_scheme.
Qed.

Lemma check_proxy_up_to_normalize_witness :
  check_proxy Sample.checker "1.2.3.4:8080" Sample.world_ok
    = check_proxy Sample.checker "http://1.2.3.4:8080" Sample.world_ok.
Proof.
  exact (proj1 (check_proxy_up_to_normalize Sample.checker "1.2.3.4:8080"
                  "http://1.2.3.4:8080" Sample.world_ok eq_refl)).
Defined.

(** ** The batch scheduler *)

Lemma check_proxy_raise_not_error
    (self : ProxyChecker) (p : string) (w : world) (e : exc) :
  check_proxy self p w = Raise e -> is_Exception e = false.
Proof.
  intros H. destruct (is_Exception e) eqn:E0; [exfalso | reflexivity].
  revert H. check_proxy_paths; intros H; try discriminate H.
  all: injection H as ->; congruence.
Qed.

Lemma weight_cons (f : Batch.task -> nat) (t : Batch.task)
    (l : list Batch.task) :
  Batch.weight f (t :: l) = (f t + Batch.weight f l)%nat.
Proof. reflexivity. Qed.

Lemma weight_in_flight_le (l : list Batch.task) :
  (Batch.weight Batch.is_in_flight l <= length l)%nat.
Proof.
  induction l as [|t l IH]; [reflexivity|].
  rewrite weight_cons. simpl length. destruct t; simpl Batch.is_in_flight; lia.
Qed.

Lemma weight_in_flight_lt (l : list Batch.task) (i : nat) :
  l !! i = Some Batch.Waiting ->
  (Batch.weight Batch.is_in_flight l < length l)%nat.
Proof.
  revert i. induction l as [|t l IH]; intros [|i] H; try discriminate H;
    rewrite weight_cons; simpl length.
  - injection H as ->. pose proof (weight_in_flight_le l).
    simpl Batch.is_in_flight. lia.
  - specialize (IH i H). destruct t; simpl Batch.is_in_flight; lia.
Qed.

Lemma first_raised_Some (ts : list Batch.task) (order : list nat) (e : exc) :
  Batch.first_raised ts order = Some e ->
  exists i, ts !! i = Some (Batch.Finished (Raise e)).
Proof.
  induction order as [|i order IH]; simpl; [discriminate|].
  destruct (ts !! i) as [[| |[r|e']]|] eqn:Hi; try exact IH.
  intros [= ->]. eauto.
Qed.

Section BatchEdges.

Variable self : ProxyChecker.
Variable proxies : list string.
Variable max_concurrent : Z.
Variable worlds : nat -> world.

Abbreviation step := (Batch.step self proxies worlds).
Abbreviation invariant :=
  (Batch.invariant self proxies max_concurrent worlds).

(** What a list handed back by [gather] is made of. *)
Lemma gathered_list (s : Batch.state) (rs : list ProxyResult) :
  invariant s ->
  Batch.gather s = Some (Return rs) ->
  length rs = length proxies /\
  forall i p, proxies !! i = Some p ->
    exists r, rs !! i = Some r /\ check_proxy self p (worlds i) = Return r.
Proof.
  intros [Hlen _ _ Hfin]. unfold Batch.gather.
  destruct (Batch.first_raised _ _); [discriminate|].
  destruct (mapM Batch.returned (Batch.tasks s)) as [rs'|] eqn:Hm;
    [|discriminate].
  intros [= ->]. apply mapM_Some in Hm.
  pose proof (Forall2_length _ _ _ Hm) as Hlen'.
  split; [lia|]. intros i p Hp.
  destruct (lookup_lt_is_Some_2 (Batch.tasks s) i) as [t Ht].
  { rewrite Hlen. eapply lookup_lt_Some; eauto. }
  destruct (Forall2_lookup_l _ _ _ _ _ Hm Ht) as (r & Hr & Hret).
  exists r. split; [exact Hr|].
  destruct t as [| |[r'|e]]; simplify_eq/=.
  destruct (Hfin _ _ Ht) as (p' & Hp' & Ho). congruence.
Qed.

Lemma returned_list (rs : list ProxyResult) :
  Batch.check_proxies self proxies max_concurrent worlds (Return rs) ->
  length rs = length proxies /\
  forall i p, proxies !! i = Some p ->
    exists r, rs !! i = Some r /\ check_proxy self p (worlds i) = Return r.
Proof.
  unfold Batch.check_proxies.
  destruct (Batch.init proxies max_concurrent) as [s0|e] eqn:Hinit;
    [|discriminate].
  intros (s & Hrun & Hg). eapply gathered_list; [|exact Hg].
  eapply invariant_rtc; [apply invariant_init|]; eassumption.
Qed.

(** X5 (proxy_checker.py, 118-127): whenever [check_proxies] returns a list,
    under any limit, any environment and any schedule, the list has one
    result per input proxy, the i-th the result of the check of the i-th
    proxy, and the [proxy] fields of the results are the normalised inputs
    in input order. *)
Theorem check_proxies_returned_list (rs : list ProxyResult) :
  Batch.check_proxies self proxies max_concurrent worlds (Return rs) ->
  length rs = length proxies /\
  (forall i p, proxies !! i = Some p ->
     exists r, rs !! i = Some r /\
               check_proxy self p (worlds i) = Return r) /\
  proxy <$> rs = normalize <$> proxies.
Proof.
  intros H. destruct (returned_list rs H) as [Hlen Hith].
  split; [exact Hlen|]. split; [exact Hith|].
  apply list_eq. intros i. rewrite !list_lookup_fmap.
  destruct (proxies !! i) as [p|] eqn:Hp.
  - destruct (Hith i p Hp) as (r & -> & Hr). simpl. f_equal.
    destruct (check_proxy_returns_inv _ _ _ _ Hr)
      as [[d ->] | (st & msg & -> & _)]; reflexivity.
  - apply lookup_ge_None in Hp. rewrite <- Hlen in Hp.
    apply lookup_ge_None in Hp. rewrite Hp. reflexivity.
Qed.

(** X6 (proxy_checker.py, 118-127): what [check_proxies] raises is the
    semaphore's refusal of a negative limit or else no [Exception] at all
    (a cancellation): no error of a probe comes out of a batch as an
    exception.  And a batch in which some check raises never returns a
    list, not even of the other results. *)
Theorem check_proxies_raises :
  (forall e,
     Batch.check_proxies self proxies max_concurrent worlds (Raise e) ->
     (max_concurrent < 0 /\
      e = Exc OtherException "Semaphore initial value must be >= 0") \/
     (0 <= max_concurrent /\ is_Exception e = false)) /\
  (forall i p e rs,
     proxies !! i = Some p ->
     check_proxy self p (worlds i) = Raise e ->
     ~ Batch.check_proxies self proxies max_concurrent worlds (Return rs)).
Proof.
  split.
  - intros e. unfold Batch.check_proxies.
    destruct (Batch.init proxies max_concurrent) as [s0|e0] eqn:Hinit.
    + intros (s & Hrun & Hg). right.
      assert (invariant s) as [_ _ _ Hfin].
      { eapply invariant_rtc; [apply invariant_init|]; eassumption. }
      split.
      { unfold Batch.init in Hinit.
        destruct (Z.ltb_spec max_concurrent 0); [discriminate | assumption]. }
      unfold Batch.gather in Hg.
      destruct (Batch.first_raised (Batch.tasks s) (Batch.completed s))
        as [e1|] eqn:Hfirst.
      * injection Hg as ->.
        destruct (first_raised_Some _ _ _ Hfirst) as [i Hi].
        destruct (Hfin _ _ Hi) as (p & Hp & Ho).
        eapply check_proxy_raise_not_error. symmetry. exact Ho.
      * destruct (mapM Batch.returned (Batch.tasks s)); discriminate Hg.
    + intros [= ->]. left. unfold Batch.init in Hinit.
      destruct (Z.ltb_spec max_concurrent 0); [|discriminate].
      injection Hinit as <-. split; [assumption | reflexivity].
  - intros i p e rs Hp He Hret.
    destruct (returned_list rs Hret) as [_ Hith].
    destruct (Hith i p Hp) as (r & _ & Hr). congruence.
Qed.

(** X7 (proxy_checker.py, 118-125): when the limit is at least the number
    of proxies, no check ever waits for the semaphore: in every state of
    the run, a check that has not started finds the counter positive and
    can be admitted at once. *)
Theorem full_width_never_blocks (s : Batch.state) (i : nat) :
  Z.of_nat (length proxies) <= max_concurrent ->
  Batch.reachable self proxies max_concurrent worlds s ->
  Batch.tasks s !! i = Some Batch.Waiting ->
  0 < Batch.sem_value s /\
  exists s', step s s' /\ Batch.tasks s' !! i = Some Batch.InFlight.
Proof.
  intros Hwide Hreach Hi.
  destruct (invariant_reachable _ _ _ _ s Hreach) as [Hlen Hsem _ _].
  pose proof (weight_in_flight_lt _ _ Hi) as Hlt.
  assert (0 < Batch.sem_value s) as Hpos.
  { unfold Batch.in_flight in Hsem. lia. }
  split; [exact Hpos|].
  eexists. split; [eapply Batch.step_acquire; eauto|]. simpl.
  apply list_lookup_insert_eq. eapply lookup_lt_Some; eauto.
Qed.

End BatchEdges.

Lemma sample_batch_returns :
  Batch.check_proxies Sample.checker Sample.batch 2 Sample.batch_worlds
    (Return Sample.batch_results).
Proof.
  unfold Batch.check_proxies. simpl Batch.init. cbv iota.
  exists {| Batch.sem_value := 2;
            Batch.tasks := Batch.Finished <$> (Return <$> Sample.batch_results);
            Batch.completed := [0; 1; 2]%nat |}.
  split; [|reflexivity].
  eapply rtc_l; [eapply (Batch.step_acquire _ _ _ 0%nat); reflexivity|].
  eapply rtc_l; [eapply (Batch.step_acquire _ _ _ 1%nat); reflexivity|].
  eapply rtc_l; [eapply (Batch.step_release _ _ _ 0%nat); reflexivity|].
  eapply rtc_l; [eapply (Batch.step_release _ _ _ 1%nat); reflexivity|].
  eapply rtc_l; [eapply (Batch.step_acquire _ _ _ 2%nat); reflexivity|].
  eapply rtc_l; [eapply (Batch.step_release _ _ _ 2%nat); reflexivity|].
  apply rtc_refl.
Qed.

Lemma check_proxies_returned_list_witness :
  length Sample.batch_results = length Sample.batch /\
  proxy <$> Sample.batch_results = normalize <$> Sample.batch.
Proof.
  destruct (check_proxies_returned_list Sample.checker Sample.batch 2
              Sample.batch_worlds Sample.batch_results sample_batch_returns)
    as (Hlen & _ & Hproxy).
  split; assumption.
Defined.

Lemma cancelled_batch_raises :
  Batch.check_proxies Sample.checker ["a:1"; "b:2"]%string 2
    Cases.cancelled_worlds (Raise (Exc BaseOnly "")).
Proof.
  unfold Batch.check_proxies. simpl Batch.init. cbv iota.
  eexists. split.
  - eapply rtc_l; [eapply (Batch.step_acquire _ _ _ 0%nat); reflexivity|].
    eapply rtc_l; [eapply (Batch.step_acquire _ _ _ 1%nat); reflexivity|].
    eapply rtc_l; [eapply (Batch.step_release _ _ _ 1%nat); reflexivity|].
    apply rtc_refl.
  - reflexivity.
Qed.

Lemma check_proxies_raises_witness :
  Batch.check_proxies Sample.checker ["a:1"; "b:2"]%string 2
    Cases.cancelled_worlds (Raise (Exc BaseOnly "")) /\
  is_Exception (Exc BaseOnly "") = false /\
  ~ Batch.check_proxies Sample.checker ["a:1"; "b:2"]%string 2
      Cases.cancelled_worlds
      (Return [working_result "a:1" Sample.world_ok []]).
Proof.
  destruct (check_proxies_raises Sample.checker ["a:1"; "b:2"]%string 2
              Cases.cancelled_worlds) as [Hraise Hnever].
  split; [exact cancelled_batch_raises|]. split.
  - destruct (Hraise _ cancelled_batch_raises) as [[Hneg _] | [_ H]];
      [discriminate Hneg | exact H].
  - exact (Hnever 1%nat "b:2"%string (Exc BaseOnly "") _ eq_refl eq_refl).
Defined.

Lemma full_width_never_blocks_witness :
  let s := {| Batch.sem_value := 2;
              Batch.tasks := [Batch.InFlight; Batch.Waiting; Batch.Waiting];
              Batch.completed := [] |} in
  0 < Batch.sem_value s /\
  exists s', Batch.step Sample.checker Sample.batch Sample.batch_worlds s s' /\
             Batch.tasks s' !! 2%nat = Some Batch.InFlight.
Proof.
  intros s.
  apply (full_width_never_blocks Sample.checker Sample.batch 3
           Sample.batch_worlds s 2%nat).
  - simpl. lia.
  - eexists. split; [reflexivity|].
    eapply rtc_l; [eapply (Batch.step_acquire _ _ _ 0%nat); reflexivity|].
    apply rtc_refl.
  - reflexivity.
Defined.

(** X8 (proxy_checker.py, 118-127): under a limit of 0 no check is ever
    admitted, so [check_proxies] ends only for the empty list, with the
    empty list; for any other batch it never comes back. *)
Theorem check_proxies_zero_limit
    (self : ProxyChecker) (proxies : list string) (worlds : nat -> world)
    (out : outcome (list ProxyResult)) :
  Batch.check_proxies self proxies 0 worlds out <->
  proxies = [] /\ out = Return [].
Proof.
  unfold Batch.check_proxies. simpl Batch.init. cbv iota. split.
  - intros (s & Hrun & Hg).
    apply rtc_inv in Hrun as [<- | (s1 & Hstep & _)].
    + unfold Batch.gather in Hg. simpl in Hg.
      destruct proxies as [|p proxies]; [|discriminate Hg].
      injection Hg as <-. split; reflexivity.
    + exfalso. inversion Hstep as [i s0 Hi Hpos | i p s0 Hi Hp]; subst.
      * simpl in Hpos. lia.
      * simpl in Hi. apply lookup_replicate in Hi as [? _]. discriminate.
  - intros [-> ->]. eexists. split; [apply rtc_refl | reflexivity].
Qed.

(** ** The endpoints *)

Lemma response_valid_failure (p : string) (s : ProxyStatus) (msg : string) :
  Api.response_valid (failure p s msg) = true.
Proof. reflexivity. Qed.

Lemma response_valid_status (r : ProxyResult) :
  Api.response_valid r = false ->
  forall self p w, check_proxy self p w = Return r -> status r = WORKING.
Proof.
  intros Hbad self p w Hr.
  destruct (check_proxy_returns_inv _ _ _ _ Hr)
    as [[d ->] | (st & msg & -> & _)]; [reflexivity|].
  rewrite response_valid_failure in Hbad. discriminate.
Qed.

Lemma response_valid_text (self : ProxyChecker) (p : string) (w : world)
    (r : ProxyResult) :
  geolocation_is_text w ->
  check_proxy self p w = Return r ->
  Api.response_valid r = true.
Proof.
  intros Htext Hr.
  destruct (get w (probe_request self p)) as [resp|e] eqn:Hget.
  - destruct (Z.eq_dec (resp_status resp) 200) as [H200|Hne].
    + destruct (resp_json resp) as [data|e] eqn:Hjson.
      * assert ((exists d, data = PyDict d) \/ forall d, data <> PyDict d)
          as [[d ->] | Hnd].
        { destruct data; first [left; eexists; reflexivity
                               | right; intros; discriminate]. }
        -- rewrite (check_proxy_json_dict _ _ _ _ _ Hget H200 Hjson) in Hr.
           injection Hr as <-. unfold Api.response_valid. simpl.
           rewrite !(Htext _ _ d _ Hget Hjson); [reflexivity | | |];
             simpl; auto.
        -- rewrite (check_proxy_json_not_dict _ _ _ _ _ Hget H200 Hjson Hnd)
             in Hr.
           injection Hr as <-. reflexivity.
      * rewrite (check_proxy_json_raises _ _ _ _ _ Hget H200 Hjson) in Hr.
        unfold handled in Hr.
        destruct (is_TimeoutError e); [injection Hr as <-; reflexivity|].
        destruct (is_Exception e); [injection Hr as <-; reflexivity|].
        discriminate.
    + rewrite (check_proxy_not_200 _ _ _ _ Hget Hne) in Hr.
      injection Hr as <-. reflexivity.
  - rewrite (check_proxy_get_raises _ _ _ _ Hget) in Hr.
    unfold handled in Hr.
    destruct (is_TimeoutError e); [injection Hr as <-; reflexivity|].
    destruct (is_Exception e); [injection Hr as <-; reflexivity|].
    discriminate.
Qed.

(** X9 (endpoints/proxy.py, 35-52): [POST /check] answers with an
    [HTTPException] exactly when the check itself returned a result, of
    status working, whose geolocation the response model refuses (a value
    of the probe body that is neither a string nor null); the status code
    is then 500 and the detail "Error checking proxy: " followed by the
    message of the validation.  No failure of the probe gives a 500. *)
Theorem api_check_proxy_500
    (settings : Config.Settings) (vstr : ProxyResult -> string)
    (request : ProxyCheckRequest.t) (w : world)
    (code : Z) (detail : string) :
  Api.check_proxy settings vstr request w = Api.HTTPException code detail <->
  code = 500 /\
  exists r,
    check_proxy {| timeout := ProxyCheckRequest.timeout request;
                   test_url := Config.test_url settings |}
      (ProxyCheckRequest.proxy request) w = Return r /\
    status r = WORKING /\
    Api.response_valid r = false /\
    detail = String.append "Error checking proxy: " (vstr r).
Proof.
  unfold Api.check_proxy, Api.except_Exception, bind, Api.make_response.
  destruct (check_proxy _ _ w) as [r|e] eqn:Hr.
  - destruct (Api.response_valid r) eqn:Hvalid; simpl.
    + split; [discriminate|]. intros (_ & r' & [= <-] & _ & Hbad & _).
      congruence.
    + split.
      * intros [= <- <-]. split; [reflexivity|]. exists r.
        split; [reflexivity|].
        split; [eapply response_valid_status; eauto|].
        split; [exact Hvalid | reflexivity].
      * intros (-> & r' & [= <-] & _ & _ & ->). reflexivity.
  - rewrite (check_proxy_raise_not_error _ _ _ _ Hr).
    split; [discriminate|]. intros (_ & r' & Hr' & _). discriminate.
Qed.

Lemma api_check_proxy_500_witness :
  Api.check_proxy Config.defaults Cases.validation_error_str Cases.single
    Cases.world_numeric_ip
  = Api.HTTPException 500
      "Error checking proxy: 1 validation error for ProxyCheckResponse".
Proof.
  apply (proj2 (api_check_proxy_500 Config.defaults
                  Cases.validation_error_str Cases.single
                  Cases.world_numeric_ip 500 _)).
  split; [reflexivity|]. eexists.
  split; [reflexivity|]. split; [reflexivity|]. split; reflexivity.
Defined.

Lemma value_inj (a b : ProxyStatus) : value a = value b -> a = b.
Proof. destruct a, b; simpl; intros H; first [reflexivity | discriminate H]. Qed.

Lemma value_working (s : ProxyStatus) :
  value s = "working"%string <-> s = WORKING.
Proof. split; [apply (value_inj s WORKING) | intros ->; reflexivity]. Qed.

(** X10 (endpoints/proxy.py, 22-52): when the probe raises only errors and
    its 200 bodies hold text under the three keys, [POST /check] always
    answers with a response model, never with an exception: its [proxy] is
    the normalised proxy of the request, its [status] one of "working",
    "failed", "timeout", its [response_time] is set exactly when the status
    is "working", its [error] exactly when it is not, and it has no
    geolocation unless the status is "working". *)
Theorem api_check_proxy_ok
    (settings : Config.Settings) (vstr : ProxyResult -> string)
    (request : ProxyCheckRequest.t) (w : world) :
  raises_only_errors w ->
  geolocation_is_text w ->
  exists resp,
    Api.check_proxy settings vstr request w = Api.Ok resp /\
    Schemas.proxy resp = normalize (ProxyCheckRequest.proxy request) /\
    In (Schemas.status resp) ["working"; "failed"; "timeout"]%string /\
    (Schemas.response_time resp <> None <->
       Schemas.status resp = "working"%string) /\
    (Schemas.error resp <> None <->
       Schemas.status resp <> "working"%string) /\
    (Schemas.status resp <> "working"%string ->
       Schemas.ip_address resp = PyNone /\
       Schemas.country resp = PyNone /\
       Schemas.city resp = PyNone).
Proof.
  intros Herr Htext.
  set (checker := {| timeout := ProxyCheckRequest.timeout request;
                     test_url := Config.test_url settings |}).
  destruct (check_proxy_returns checker (ProxyCheckRequest.proxy request) w Herr)
    as [r Hr].
  pose proof (response_valid_text _ _ _ _ Htext Hr) as Hvalid.
  exists (Endpoint.to_response r). split.
  - unfold Api.check_proxy, Api.except_Exception, bind, Api.make_response.
    fold checker. rewrite Hr, Hvalid. reflexivity.
  - simpl.
    destruct (check_proxy_returns_inv _ _ _ _ Hr)
      as [[d ->] | (st & msg & -> & Hst)]; simpl.
    + repeat split; auto; try discriminate; try congruence.
    + assert (value st <> "working"%string) as Hv.
      { intros Hv. apply Hst, value_working, Hv. }
      split; [reflexivity|]. split; [apply status_value_known|].
      repeat split; auto; try discriminate; try congruence.
Qed.

Lemma api_check_proxy_ok_witness :
  exists resp,
    Api.check_proxy Config.defaults Cases.validation_error_str Cases.single
      Sample.world_403 = Api.Ok resp /\
    Schemas.proxy resp = "http://1.2.3.4:8080"%string /\
    Schemas.status resp = "failed"%string /\
    Schemas.error resp = Some "HTTP 403"%string.
Proof.
  assert (raises_only_errors Sample.world_403) as Herr.
  { split.
    - intros req e [=].
    - intros req resp e [= <-] [=]. }
  assert (geolocation_is_text Sample.world_403) as Htext.
  { intros req resp d k [= <-] [=]. }
  destruct (api_check_proxy_ok Config.defaults Cases.validation_error_str
              Cases.single Sample.world_403 Herr Htext)
    as (resp & Hresp & _).
  exists resp. split; [exact Hresp|].
  change (Api.Ok (Endpoint.to_response
                    (failure "http://1.2.3.4:8080" FAILED "HTTP 403"))
          = Api.Ok resp) in Hresp.
  injection Hresp as <-. repeat split.
Defined.

(** X11 (endpoints/proxy.py, 42-50; proxy_checker.py, 11-16): the response
    model keeps every field of the result, and the three status strings
    are distinct: two results with the same response are the same
    result. *)
Theorem to_response_inj (r1 r2 : ProxyResult) :
  Endpoint.to_response r1 = Endpoint.to_response r2 <-> r1 = r2.
Proof.
  split; [|intros ->; reflexivity].
  destruct r1 as [p1 s1 t1 i1 c1 y1 e1], r2 as [p2 s2 t2 i2 c2 y2 e2].
  unfold Endpoint.to_response. simpl. intros H.
  injection H as Hp Hs Ht Hi Hc Hy He.
  apply value_inj in Hs. congruence.
Qed.

Section BatchResponse.

Variable vstr : ProxyResult -> string.

Abbreviation make_responses := (Api.make_responses vstr).
Abbreviation api_batch_response := (Api.batch_response vstr).

Lemma make_responses_valid (rs : list ProxyResult) :
  Forall (fun r => Api.response_valid r = true) rs ->
  make_responses rs = Return (Endpoint.to_response <$> rs).
Proof.
  induction 1 as [|r rs Hr _ IH]; [reflexivity|].
  simpl. unfold Api.make_response at 1. rewrite Hr, IH. reflexivity.
Qed.

Lemma make_responses_returns (rs : list ProxyResult)
    (xs : list Schemas.ProxyCheckResponse) :
  make_responses rs = Return xs ->
  Forall (fun r => Api.response_valid r = true) rs /\
  xs = Endpoint.to_response <$> rs.
Proof.
  revert xs. induction rs as [|r rs IH]; intros xs; simpl.
  - intros [= <-]. split; [constructor | reflexivity].
  - unfold Api.make_response at 1.
    destruct (Api.response_valid r) eqn:Hr; [|discriminate]. simpl.
    destruct (make_responses rs) as [xs'|e] eqn:Hrs; [|discriminate].
    simpl. intros [= <-]. destruct (IH xs' eq_refl) as [Hall ->].
    split; [constructor; assumption | reflexivity].
Qed.

Lemma make_responses_invalid (rs : list ProxyResult) (r : ProxyResult) :
  r ∈ rs -> Api.response_valid r = false ->
  exists r', r' ∈ rs /\ Api.response_valid r' = false /\
    make_responses rs = Raise (Exc OtherException (vstr r')).
Proof.
  intros Hin Hbad. induction rs as [|r0 rs IH]; [inversion Hin|].
  simpl. unfold Api.make_response at 1.
  destruct (Api.response_valid r0) eqn:Hr0.
  - assert (r ∈ rs) as Hin'.
    { apply elem_of_cons in Hin as [->|Hin]; [congruence | exact Hin]. }
    destruct (IH Hin') as (r' & Hr' & Hbad' & ->).
    exists r'. split; [right; exact Hr'|]. split; [exact Hbad' | reflexivity].
  - exists r0. split; [left|]. split; [exact Hr0 | reflexivity].
Qed.

(** The response of a batch whose results the model accepts. *)
Lemma api_batch_response_valid (rs : list ProxyResult) :
  Forall (fun r => Api.response_valid r = true) rs ->
  exists s, api_batch_response rs = Return s /\
    Schemas.results s = Endpoint.to_response <$> rs /\
    Schemas.total s = Z.of_nat (length rs) /\
    Schemas.working s = Endpoint.count WORKING rs /\
    Schemas.failed s =
      Endpoint.count FAILED rs + Endpoint.count TIMEOUT rs /\
    Schemas.success_rate s =
      (if 0 <? Z.of_nat (length rs)
       then PyFloat.round
              (PyFloat.mul
                 (PyFloat.quotient (Endpoint.count WORKING rs)
                    (Z.of_nat (length rs)))
                 (PyFloat.of_int 100)) 2
       else PyFloat.zero).
Proof.
  intros Hall.
  pose proof (count_partition rs) as Hpart.
  pose proof (count_nonneg WORKING rs) as Hw.
  pose proof (count_nonneg FAILED rs) as Hf.
  pose proof (count_nonneg TIMEOUT rs) as Ht.
  unfold Api.batch_response.
  rewrite (make_responses_valid rs Hall), working_sum_is_count. simpl bind.
  destruct (0 <? Z.of_nat (length rs)) eqn:Epos.
  - apply Z.ltb_lt in Epos.
    rewrite truediv_returns by lia. simpl bind.
    eexists. split; [reflexivity|]. simpl.
    repeat split; try reflexivity; lia.
  - simpl bind. eexists. split; [reflexivity|]. simpl.
    repeat split; try reflexivity; lia.
Qed.

Lemma api_batch_response_returns (rs : list ProxyResult)
    (s : Schemas.ProxyBatchCheckResponse) :
  api_batch_response rs = Return s ->
  Forall (fun r => Api.response_valid r = true) rs.
Proof.
  unfold Api.batch_response.
  destruct (make_responses rs) as [xs|e] eqn:Hrs; [|discriminate].
  intros _. exact (proj1 (make_responses_returns rs xs Hrs)).
Qed.

End BatchResponse.

(** C5: the response of a batch is built for every list of results the
    response model accepts, and in every response that is built [total] is
    the number of results, [working] the number of results whose status is
    working, [failed] is [total - working], which is the number of failed
    results plus the number of timeout results, and [success_rate] is
    [round(working / total * 100, 2)] when [total > 0] and [0.0] when
    [total = 0]. *)
Theorem batch_response_summary
    (vstr : ProxyResult -> string) (results : list ProxyResult) :
  (Forall (fun r => Api.response_valid r = true) results ->
   exists s, Api.batch_response vstr results = Return s) /\
  (forall s, Api.batch_response vstr results = Return s ->
     Schemas.total s = Z.of_nat (length results) /\
     Schemas.working s = Endpoint.count WORKING results /\
     Schemas.failed s = Schemas.total s - Schemas.working s /\
     Schemas.failed s =
       Endpoint.count FAILED results + Endpoint.count TIMEOUT results /\
     (0 < Schemas.total s ->
        Schemas.success_rate s =
          PyFloat.round
            (PyFloat.mul
               (PyFloat.quotient (Schemas.working s) (Schemas.total s))
               (PyFloat.of_int 100)) 2) /\
     (Schemas.total s = 0 -> Schemas.success_rate s = PyFloat.zero)).
Proof.
  split.
  - intros Hall.
    destruct (api_batch_response_valid vstr results Hall) as (s & Hs & _).
    exists s. exact Hs.
  - intros s Hs.
    pose proof (api_batch_response_returns vstr results s Hs) as Hall.
    destruct (api_batch_response_valid vstr results Hall)
      as (s' & Hs' & _ & Htot & Hwork & Hfail & Hrate).
    assert (s' = s) as -> by congruence.
    pose proof (count_partition results) as Hpart.
    rewrite Htot, Hwork, Hfail.
    split; [reflexivity|]. split; [reflexivity|]. split; [lia|].
    split; [reflexivity|]. split.
    + intros Hpos. rewrite Hrate.
      replace (0 <? Z.of_nat (length results)) with true
        by (symmetry; apply Z.ltb_lt; exact Hpos).
      reflexivity.
    + intros Hzero. rewrite Hrate, Hzero. reflexivity.
Qed.

(** The batch of the specification: two working, one failed. *)
Lemma batch_response_summary_witness :
  exists s,
    Api.batch_response Cases.validation_error_str
      [working_result "a:1" Sample.world_ok [];
       failure "http://b:2" FAILED "HTTP 403";
       working_result "c:3" Sample.world_ok []]
    = Return s /\
    Schemas.total s = 3 /\ Schemas.working s = 2 /\ Schemas.failed s = 1 /\
    Schemas.success_rate s = PyFloat.quotient 6667 100.
Proof.
  destruct (batch_response_summary Cases.validation_error_str
              [working_result "a:1" Sample.world_ok [];
               failure "http://b:2" FAILED "HTTP 403";
               working_result "c:3" Sample.world_ok []])
    as [Hbuilt Hsum].
  destruct (Hbuilt ltac:(repeat constructor)) as [s Hs].
  destruct (Hsum s Hs) as (Htot & Hwork & _ & Hfail & Hrate & _).
  exists s. split; [exact Hs|].
  assert (Schemas.total s = 3) as H3 by exact Htot.
  assert (Schemas.working s = 2) as H2 by exact Hwork.
  split; [exact H3|]. split; [exact H2|].
  split; [exact Hfail|].
  rewrite Hrate by (rewrite H3; reflexivity).
  rewrite H3, H2. vm_compute. reflexivity.
Defined.

Lemma check_proxies_outcome
    (self : ProxyChecker) (proxies : list string) (max_concurrent : Z)
    (worlds : nat -> world) :
  1 <= max_concurrent ->
  (forall i, raises_only_errors (worlds i)) ->
  exists rs,
    Batch.outcomes self proxies worlds = Return <$> rs /\
    forall out,
      Batch.check_proxies self proxies max_concurrent worlds out <->
      out = Return rs.
Proof.
  intros Hmax Hworlds.
  destruct (outcomes_return self proxies worlds Hworlds) as [rs Hrs].
  exists rs. split; [exact Hrs|]. intros out.
  pose proof (init_returns proxies max_concurrent ltac:(lia)) as Hinit.
  pose proof (invariant_init self proxies max_concurrent worlds _ Hinit)
    as Hinv0.
  unfold Batch.check_proxies. rewrite Hinit. split.
  - intros (s & Hrun & Hg).
    eapply gather_unique; [eapply invariant_rtc; eauto | exact Hrs | exact Hg].
  - intros ->.
    destruct (runs_to_completion self proxies max_concurrent worlds _
                Hmax Hinv0) as (s' & Hrun & Hdone).
    exists s'. split; [exact Hrun|].
    eapply gather_finished; [eapply invariant_rtc; eauto | exact Hrs | exact Hdone].
Qed.

Lemma outcomes_lookup
    (self : ProxyChecker) (proxies : list string) (worlds : nat -> world)
    (rs : list ProxyResult) :
  Batch.outcomes self proxies worlds = Return <$> rs ->
  length rs = length proxies /\
  forall i r, rs !! i = Some r ->
    exists p, proxies !! i = Some p /\
              check_proxy self p (worlds i) = Return r.
Proof.
  intros Hrs. split.
  - rewrite <- (length_fmap Return rs), <- Hrs.
    unfold Batch.outcomes. apply length_imap.
  - intros i r Hr.
    assert (Batch.outcomes self proxies worlds !! i = Some (Return r)) as Ho.
    { rewrite Hrs, list_lookup_fmap, Hr. reflexivity. }
    unfold Batch.outcomes in Ho. rewrite list_lookup_imap in Ho.
    destruct (proxies !! i) as [p|]; simplify_eq/=. eauto.
Qed.

Lemma count_status_to_response (st : ProxyStatus) (rs : list ProxyResult) :
  count_status (value st) (Endpoint.to_response <$> rs) = Endpoint.count st rs.
Proof.
  induction rs as [|r rs IH]; [reflexivity|].
  rewrite count_cons, <- IH. unfold count_status.
  rewrite fmap_cons. simpl List.filter.
  destruct (status r), st; simpl; lia.
Qed.

Lemma returned_proxies
    (self : ProxyChecker) (proxies : list string) (worlds : nat -> world)
    (rs : list ProxyResult) :
  Batch.outcomes self proxies worlds = Return <$> rs ->
  proxy <$> rs = normalize <$> proxies.
Proof.
  intros Hrs. destruct (outcomes_lookup _ _ _ _ Hrs) as [Hlen Hith].
  apply list_eq. intros i. rewrite !list_lookup_fmap.
  destruct (rs !! i) as [r|] eqn:Hr.
  - destruct (Hith i r Hr) as (p & -> & Hcheck). simpl. f_equal.
    destruct (check_proxy_returns_inv _ _ _ _ Hcheck)
      as [[d ->] | (st & msg & -> & _)]; reflexivity.
  - apply lookup_ge_None in Hr. rewrite Hlen in Hr.
    apply lookup_ge_None in Hr. rewrite Hr. reflexivity.
Qed.

Section BatchEndpoint.

Variable settings : Config.Settings.
Variable vstr : ProxyResult -> string.
Variable request : ProxyBatchCheckRequest.t.
Variable worlds : nat -> world.

Abbreviation checker :=
  {| timeout := ProxyBatchCheckRequest.timeout request;
     test_url := Config.test_url settings |}.
Abbreviation proxies := (ProxyBatchCheckRequest.proxies request).
Abbreviation limit := (ProxyBatchCheckRequest.max_concurrent request).
Abbreviation check_batch := (Api.check_batch settings vstr request worlds).

(** X12 (endpoints/proxy.py, 61-112): for a request within the bounds of
    its model, probes that raise only errors and 200 bodies that hold text
    under the three keys, [POST /check-batch] has one outcome under every
    schedule, a response model and never an exception; its [results] are
    one per proxy of the request, in the order of the request, each with
    the normalised proxy, [total] is their number, between 1 and 100, and
    [working] and [failed] are counts that add up to [total]. *)
Theorem api_check_batch_ok :
  ProxyBatchCheckRequest.valid request = true ->
  (forall i, raises_only_errors (worlds i)) ->
  (forall i, geolocation_is_text (worlds i)) ->
  exists resp,
    (forall out, check_batch out <-> out = Api.Ok resp) /\
    length (Schemas.results resp) = length proxies /\
    Schemas.proxy <$> Schemas.results resp = normalize <$> proxies /\
    Schemas.total resp = Z.of_nat (length proxies) /\
    1 <= Schemas.total resp <= 100 /\
    0 <= Schemas.working resp /\ 0 <= Schemas.failed resp /\
    Schemas.working resp + Schemas.failed resp = Schemas.total resp /\
    Schemas.working resp = count_status "working" (Schemas.results resp).
Proof.
  intros Hvalid Herr Htext.
  unfold ProxyBatchCheckRequest.valid in Hvalid.
  repeat (apply andb_true_iff in Hvalid as [Hvalid ?]).
  repeat match goal with
         | H : (_ <=? _) = true |- _ => apply Z.leb_le in H
         end.
  destruct (check_proxies_outcome checker proxies limit worlds
              ltac:(lia) Herr) as (rs & Hrs & Hout).
  destruct (outcomes_lookup _ _ _ _ Hrs) as [Hlen Hith].
  assert (Forall (fun r => Api.response_valid r = true) rs) as Hall.
  { apply Forall_lookup. intros i r Hr.
    destruct (Hith i r Hr) as (p & _ & Hcheck).
    eapply response_valid_text; eauto. }
  destruct (api_batch_response_valid vstr rs Hall)
    as (s & Hs & Hres & Htot & Hwork & Hfail & _).
  pose proof (count_partition rs) as Hpart.
  pose proof (count_nonneg WORKING rs) as Hw.
  pose proof (count_nonneg FAILED rs) as Hf.
  pose proof (count_nonneg TIMEOUT rs) as Ht.
  exists s. split; [|repeat split].
  - intros out. unfold Api.check_batch. split.
    + intros (o & Ho & ->). apply Hout in Ho as ->.
      simpl bind. rewrite Hs. reflexivity.
    + intros ->. exists (Return rs). split; [apply Hout; reflexivity|].
      simpl bind. rewrite Hs. reflexivity.
  - rewrite Hres, length_fmap. exact Hlen.
  - rewrite Hres, <- list_fmap_compose.
    exact (returned_proxies _ _ _ _ Hrs).
  - lia.
  - lia.
  - lia.
  - lia.
  - lia.
  - lia.
  - rewrite Hres, Hwork.
    symmetry. exact (count_status_to_response WORKING rs).
Qed.

(** X13 (endpoints/proxy.py, 84-112): when the check of one proxy of the
    batch returns a result the response model refuses (a geolocation value
    that is neither a string nor null), [POST /check-batch] never answers
    with a response model, under any schedule: the results of the other
    proxies are not returned either.  It raises an [HTTPException] of
    status code 500 whose detail starts with "Error checking proxies: ",
    or lets a cancellation through. *)
Theorem api_check_batch_refused_result
    (i : nat) (p : string) (r : ProxyResult)
    (out : Api.http Schemas.ProxyBatchCheckResponse) :
  proxies !! i = Some p ->
  check_proxy checker p (worlds i) = Return r ->
  Api.response_valid r = false ->
  check_batch out ->
  (forall resp, out <> Api.Ok resp) /\
  ((exists e, out = Api.Passed e /\ is_Exception e = false) \/
   exists msg,
     out = Api.HTTPException 500
             (String.append "Error checking proxies: " msg)).
Proof.
  intros Hp Hr Hbad (o & Ho & ->).
  destruct o as [rs|e]; simpl bind.
  - destruct (returned_list _ _ _ _ rs Ho) as [_ Hith].
    destruct (Hith i p Hp) as (r' & Hr' & Hcheck).
    assert (r' = r) as -> by congruence.
    assert (r ∈ rs) as Hin by (eapply list_elem_of_lookup_2; eauto).
    destruct (make_responses_invalid vstr rs r Hin Hbad)
      as (r1 & _ & _ & Hraise).
    unfold Api.batch_response. rewrite Hraise. simpl.
    split; [discriminate|]. right. eexists. reflexivity.
  - unfold Api.except_Exception.
    destruct (is_Exception e) eqn:He.
    + split; [discriminate|]. right. eexists. reflexivity.
    + split; [discriminate|]. left. eauto.
Qed.

(** X14 (endpoints/proxy.py, 74-82 and 111-112; proxy_checker.py, 118): a
    negative [max_concurrent], which the request model excludes but the
    endpoint does not test, makes the semaphore refuse the limit before
    any check starts, and the endpoint turns that into its only outcome:
    an [HTTPException] of status code 500 with the semaphore's message. *)
Theorem api_check_batch_negative_limit
    (out : Api.http Schemas.ProxyBatchCheckResponse) :
  limit < 0 ->
  (check_batch out <->
   out = Api.HTTPException 500
           "Error checking proxies: Semaphore initial value must be >= 0").
Proof.
  intros Hneg. unfold Api.check_batch, Batch.check_proxies, Batch.init.
  replace (limit <? 0) with true by (symmetry; apply Z.ltb_lt; exact Hneg).
  split.
  - intros (o & -> & ->). reflexivity.
  - intros ->. eexists. split; reflexivity.
Qed.

End BatchEndpoint.

Lemma batch_worlds_text (i : nat) : geolocation_is_text (Sample.batch_worlds i).
Proof.
  destruct i as [|[|i]]; intros req resp d k Hget Hjson Hin;
    simpl in Hget; try discriminate Hget; injection Hget as <-;
    simpl in Hjson; try discriminate Hjson.
  injection Hjson as <-.
  simpl in Hin. destruct Hin as [<-|[<-|[<-|[]]]]; reflexivity.
Qed.

Lemma api_check_batch_ok_witness :
  exists resp,
    Api.check_batch Config.defaults Cases.validation_error_str Cases.three
      Sample.batch_worlds (Api.Ok resp) /\
    length (Schemas.results resp) = 3%nat /\
    Schemas.total resp = 3.
Proof.
  destruct (api_check_batch_ok Config.defaults Cases.validation_error_str
              Cases.three Sample.batch_worlds eq_refl
              batch_worlds_raise_only_errors batch_worlds_text)
    as (resp & Hout & Hlen & _ & Htot & _).
  exists resp. split; [apply Hout; reflexivity|].
  split; [exact Hlen | exact Htot].
Defined.

Lemma numeric_batch_runs :
  Batch.check_proxies Sample.checker ["a:1"; "b:2"]%string 2
    Cases.numeric_worlds
    (Return [working_result "a:1" Sample.world_ok
               [("query", PyStr "1.2.3.4"); ("country", PyStr "US");
                ("city", PyStr "Ashburn")]%string;
             working_result "b:2" Cases.world_numeric_ip
               [("query", PyInt 16909060); ("country", PyStr "US")]%string]).
Proof.
  unfold Batch.check_proxies. simpl Batch.init. cbv iota.
  eexists. split.
  - eapply rtc_l; [eapply (Batch.step_acquire _ _ _ 0%nat); reflexivity|].
    eapply rtc_l; [eapply (Batch.step_acquire _ _ _ 1%nat); reflexivity|].
    eapply rtc_l; [eapply (Batch.step_release _ _ _ 1%nat); reflexivity|].
    eapply rtc_l; [eapply (Batch.step_release _ _ _ 0%nat); reflexivity|].
    apply rtc_refl.
  - reflexivity.
Qed.

Lemma api_check_batch_refused_result_witness :
  let out :=
    Api.HTTPException 500
      "Error checking proxies: 1 validation error for ProxyCheckResponse" in
  Api.check_batch Config.defaults Cases.validation_error_str (Cases.two 2)
    Cases.numeric_worlds out /\
  (forall resp, out <> Api.Ok resp).
Proof.
  intros out.
  assert (Api.check_batch Config.defaults Cases.validation_error_str
            (Cases.two 2) Cases.numeric_worlds out) as Hout.
  { eexists. split; [exact numeric_batch_runs | reflexivity]. }
  split; [exact Hout|].
  exact (proj1 (api_check_batch_refused_result Config.defaults
                  Cases.validation_error_str (Cases.two 2)
                  Cases.numeric_worlds 1%nat "b:2"%string _ out
                  eq_refl eq_refl eq_refl Hout)).
Defined.

Lemma api_check_batch_negative_limit_witness :
  Api.check_batch Config.defaults Cases.validation_error_str (Cases.two (-3))
    Cases.numeric_worlds
    (Api.HTTPException 500
       "Error checking proxies: Semaphore initial value must be >= 0").
Proof.
  apply (api_check_batch_negative_limit Config.defaults
           Cases.validation_error_str (Cases.two (-3)) Cases.numeric_worlds).
  - reflexivity.
  - reflexivity.
Defined.

(** ** The response of a batch *)

(** X15 (endpoints/proxy.py, 84-110): the response of a batch is built
    exactly when the response model accepts every result; the statistics
    never fail.  In a response that is built, [results] are the models of
    the results in order, [total] is the length of [results], [working] the
    number of its entries with status "working", and [failed] the number of
    its entries with status "failed" or "timeout". *)
Theorem api_batch_response_consistent
    (vstr : ProxyResult -> string) (rs : list ProxyResult) :
  ((exists s, Api.batch_response vstr rs = Return s) <->
   Forall (fun r => Api.response_valid r = true) rs) /\
  (forall s, Api.batch_response vstr rs = Return s ->
     Schemas.results s = Endpoint.to_response <$> rs /\
     Schemas.total s = Z.of_nat (length (Schemas.results s)) /\
     Schemas.working s = count_status "working" (Schemas.results s) /\
     Schemas.failed s =
       count_status "failed" (Schemas.results s)
       + count_status "timeout" (Schemas.results s)).
Proof.
  split.
  - split.
    + intros [s Hs]. exact (api_batch_response_returns vstr rs s Hs).
    + intros Hall.
      destruct (api_batch_response_valid vstr rs Hall) as (s & Hs & _).
      exists s. exact Hs.
  - intros s Hs.
    pose proof (api_batch_response_returns vstr rs s Hs) as Hall.
    destruct (api_batch_response_valid vstr rs Hall)
      as (s' & Hs' & Hres & Htot & Hwork & Hfail & _).
    assert (s' = s) as -> by congruence.
    split; [exact Hres|].
    rewrite Hres, length_fmap.
    rewrite <- (count_status_to_response WORKING),
            <- (count_status_to_response FAILED),
            <- (count_status_to_response TIMEOUT) in *.
    repeat split; assumption.
Qed.

Lemma api_batch_response_consistent_witness :
  exists s,
    Api.batch_response Cases.validation_error_str Sample.batch_results
      = Return s /\
    Schemas.total s = 3 /\ Schemas.working s = 1 /\ Schemas.failed s = 2.
Proof.
  destruct (api_batch_response_consistent Cases.validation_error_str
              Sample.batch_results) as [Hiff Hcons].
  assert (Forall (fun r => Api.response_valid r = true) Sample.batch_results)
    as Hall by (repeat constructor).
  destruct (proj2 Hiff Hall) as [s Hs].
  destruct (Hcons s Hs) as (Hres & Htot & Hwork & Hfail).
  exists s. split; [exact Hs|].
  rewrite Hres in Htot, Hwork, Hfail.
  split; [exact Htot|]. split; [exact Hwork | exact Hfail].
Defined.

Lemma float_eqb_eq (x y : float) : float_eqb x y = true -> x = y.
Proof.
  destruct x as [a|a| |a m e], y as [b|b| |b m' e']; simpl;
    try discriminate; try reflexivity.
  - intros H. apply Bool.eqb_prop in H. congruence.
  - intros H. apply Bool.eqb_prop in H. congruence.
  - intros H. apply andb_true_iff in H as [H He].
    apply andb_true_iff in H as [Hs Hm].
    apply Bool.eqb_prop in Hs. apply Pos.eqb_eq in Hm. apply Z.eqb_eq in He.
    congruence.
Qed.

Lemma rates_checked_100 : rates_checked 100 = true.
Proof. vm_compute. reflexivity. Qed.

Lemma rates_checked_spec (n w t : nat) :
  rates_checked n = true ->
  (1 <= t <= n)%nat -> (w <= t)%nat ->
  rate_checked (Z.of_nat w) (Z.of_nat t) = true.
Proof.
  unfold rates_checked. intros H Ht Hw.
  rewrite forallb_forall in H.
  specialize (H t ltac:(apply in_seq; lia)).
  rewrite forallb_forall in H.
  exact (H w ltac:(apply in_seq; lia)).
Qed.

Lemma rate_checked_in_range (w t : Z) :
  1 <= t <= 100 -> 0 <= w <= t -> rate_checked w t = true.
Proof.
  intros Ht Hw.
  rewrite <- (Z2Nat.id w), <- (Z2Nat.id t) by lia.
  apply (rates_checked_spec 100); [exact rates_checked_100 | lia | lia].
Qed.

(** X16 (endpoints/proxy.py, 99-102): for a batch of at most 100 results,
    the bound of the request model, [success_rate] is the double nearest to
    [k / 100] for an integer [k] between 0 and 10000 that is nearest to the
    exact [10000 * working / total]: the floating-point division,
    multiplication and rounding never move the rate to another hundredth.
    So the rate is 100.0 exactly when every result is working, and 0.0
    exactly when none is. *)
Theorem success_rate_exact
    (vstr : ProxyResult -> string) (rs : list ProxyResult)
    (s : Schemas.ProxyBatchCheckResponse) :
  (0 < length rs <= 100)%nat ->
  Api.batch_response vstr rs = Return s ->
  exists k,
    Schemas.success_rate s = PyFloat.quotient k 100 /\
    0 <= k <= 10000 /\
    2 * Z.abs (k * Schemas.total s - 10000 * Schemas.working s)
      <= Schemas.total s /\
    (k = 10000 <-> Schemas.working s = Schemas.total s) /\
    (k = 0 <-> Schemas.working s = 0).
Proof.
  intros Hlen Hs.
  pose proof (api_batch_response_returns vstr rs s Hs) as Hall.
  destruct (api_batch_response_valid vstr rs Hall)
    as (s' & Hs' & _ & Htot & Hwork & _ & Hrate).
  assert (s' = s) as -> by congruence.
  pose proof (count_partition rs) as Hpart.
  pose proof (count_nonneg WORKING rs) as Hw.
  pose proof (count_nonneg FAILED rs) as Hf.
  pose proof (count_nonneg TIMEOUT rs) as Ht.
  replace (0 <? Z.of_nat (length rs)) with true in Hrate
    by (symmetry; apply Z.ltb_lt; lia).
  rewrite <- Hwork, <- Htot in Hrate.
  set (t := Schemas.total s) in *. set (w := Schemas.working s) in *.
  assert (1 <= t <= 100) as Htr by lia.
  assert (0 <= w <= t) as Hwr by lia.
  pose proof (rate_checked_in_range w t Htr Hwr) as Hck.
  unfold rate_checked, success_rate_of in Hck. rewrite <- Hrate in Hck.
  pose proof (Z.div_mod (10000 * w) t ltac:(lia)) as Hdiv.
  pose proof (Z.mod_pos_bound (10000 * w) t ltac:(lia)) as Hmod.
  set (q := (10000 * w) / t) in *.
  apply orb_true_iff in Hck as [Hck | Hck];
    apply andb_true_iff in Hck as [Heq Hnear];
    apply float_eqb_eq in Heq; apply Z.leb_le in Hnear.
  - exists q. split; [exact Heq|]. nia.
  - exists (q + 1). split; [exact Heq|]. nia.
Qed.

Lemma success_rate_exact_witness :
  exists s k,
    Api.batch_response Cases.validation_error_str Sample.batch_results
      = Return s /\
    Schemas.success_rate s = PyFloat.quotient k 100 /\
    2 * Z.abs (k * Schemas.total s - 10000 * Schemas.working s)
      <= Schemas.total s.
Proof.
  destruct (api_batch_response_valid Cases.validation_error_str
              Sample.batch_results ltac:(repeat constructor))
    as (s & Hs & _).
  destruct (success_rate_exact Cases.validation_error_str
              Sample.batch_results s ltac:(simpl; lia) Hs)
    as (k & Hrate & _ & Hnear & _).
  exists s, k. split; [exact Hs|]. split; [exact Hrate | exact Hnear].
Defined.

(** ** The request of a check, and runs under any environment *)

(** X17 (proxy_checker.py, 60-72): a check consults its environment through
    one request only, a GET of the test URL through the normalised proxy,
    with the timeout of the checker as total timeout and certificate
    verification off, and through the two clock readings: two environments
    that agree on these give the same outcome, whatever they would answer
    to any other request. *)
Theorem check_proxy_single_request
    (self : ProxyChecker) (p : string) (w w' : world) :
  get w {| req_url := test_url self; req_proxy := normalize p;
           req_total_timeout := timeout self; req_ssl := false |}
  = get w' {| req_url := test_url self; req_proxy := normalize p;
              req_total_timeout := timeout self; req_ssl := false |} ->
  time_start w = time_start w' ->
  time_response w = time_response w' ->
  check_proxy self p w = check_proxy self p w'.
Proof.
  intros Hget Hstart Hresp. unfold check_proxy.
  rewrite Hget, Hstart, Hresp. reflexivity.
Qed.

Lemma check_proxy_single_request_witness :
  check_proxy Sample.checker "1.2.3.4:8080" Sample.world_403
  = check_proxy Sample.checker "1.2.3.4:8080"
      {| time_start := Sample.t0; time_response := Sample.t1;
         get := fun req =>
                  if req_ssl req
                  then Raise (Exc OtherException "certificate verify failed")
                  else Return (Response 403 (Return PyNone)) |}.
Proof.
  apply check_proxy_single_request; reflexivity.
Defined.

Section BatchLiveness.

Variable self : ProxyChecker.
Variable proxies : list string.
Variable max_concurrent : Z.
Variable worlds : nat -> world.

Abbreviation step := (Batch.step self proxies worlds).

Lemma logged_step (s s' : Batch.state) : logged s -> step s s' -> logged s'.
Proof.
  intros Hlog Hstep.
  destruct Hstep as [i s Hi Hpos | i p s Hi Hp]; intros j o Hj; simpl in *.
  - destruct (decide (i = j)) as [->|Hne].
    + rewrite list_lookup_insert_eq in Hj by (eapply lookup_lt_Some; eauto).
      discriminate.
    + rewrite list_lookup_insert_ne in Hj by assumption. eauto.
  - apply elem_of_app. destruct (decide (i = j)) as [->|Hne].
    + right. apply list_elem_of_singleton. reflexivity.
    + rewrite list_lookup_insert_ne in Hj by assumption. left. eauto.
Qed.

Lemma logged_rtc (s s' : Batch.state) : logged s -> rtc step s s' -> logged s'.
Proof. induction 2; eauto using logged_step. Qed.

Lemma first_raised_None_inv (ts : list Batch.task) (order : list nat)
    (i : nat) (e : exc) :
  Batch.first_raised ts order = None ->
  i ∈ order -> ts !! i <> Some (Batch.Finished (Raise e)).
Proof.
  induction order as [|j order IH]; intros Hnone Hin; [inversion Hin|].
  simpl in Hnone. apply elem_of_cons in Hin as [->|Hin].
  - intros Hi. rewrite Hi in Hnone. discriminate.
  - apply IH; [|exact Hin].
    destruct (ts !! j) as [[| |[r|e']]|]; first [exact Hnone | discriminate].
Qed.

Lemma mapM_returned_total (ts : list Batch.task) :
  (forall i t, ts !! i = Some t -> exists r, t = Batch.Finished (Return r)) ->
  exists rs, mapM Batch.returned ts = Some rs.
Proof.
  induction ts as [|t ts IH]; intros H; [exists []; reflexivity|].
  destruct (H 0%nat t eq_refl) as [r ->].
  destruct IH as [rs Hrs]; [intros i t' Hi; exact (H (S i) t' Hi)|].
  exists (r :: rs). apply mapM_Some. constructor; [reflexivity|].
  apply mapM_Some. exact Hrs.
Qed.

Lemma gather_at_completion (s : Batch.state) :
  logged s ->
  Batch.weight Batch.pending_steps (Batch.tasks s) = 0%nat ->
  exists out, Batch.gather s = Some out.
Proof.
  intros Hlog Hdone. unfold Batch.gather.
  destruct (Batch.first_raised (Batch.tasks s) (Batch.completed s))
    as [e|] eqn:Hfirst; [eauto|].
  destruct (mapM_returned_total (Batch.tasks s)) as [rs ->]; [|simpl; eauto].
  intros i t Hi.
  destruct (remaining_zero_finished _ _ _ Hdone Hi) as [[r|e] ->]; [eauto|].
  exfalso. eapply first_raised_None_inv; eauto.
Qed.

(** X18 (proxy_checker.py, 118-127): under a limit of at least 1,
    [check_proxies] never hangs, whatever the probes do: no schedule has
    more than two steps per proxy, and from every state of a run a state is
    reached in which [gather] hands its caller a list or an exception. *)
Theorem check_proxies_never_hangs :
  1 <= max_concurrent ->
  (exists out, Batch.check_proxies self proxies max_concurrent worlds out) /\
  (forall s,
     Batch.reachable self proxies max_concurrent worlds s ->
     exists s' out, rtc step s s' /\ Batch.gather s' = Some out) /\
  (forall n s0 s,
     Batch.init proxies max_concurrent = Return s0 ->
     nsteps step n s0 s -> (n <= 2 * length proxies)%nat).
Proof.
  intros Hmax.
  pose proof (init_returns proxies max_concurrent ltac:(lia)) as Hinit.
  assert (forall s,
            Batch.reachable self proxies max_concurrent worlds s ->
            exists s' out, rtc step s s' /\ Batch.gather s' = Some out)
    as Hlive.
  { intros s Hreach.
    pose proof (invariant_reachable _ _ _ _ s Hreach) as Hinv.
    destruct (runs_to_completion _ _ _ _ s Hmax Hinv) as (s' & Hrun & Hdone).
    assert (logged s') as Hlog.
    { destruct Hreach as (s0 & Hs0 & Hrun0).
      apply (logged_rtc s0 s'); [|eapply rtc_trans; [exact Hrun0 | exact Hrun]].
      rewrite Hinit in Hs0. injection Hs0 as <-.
      intros i o Hi. simpl in Hi.
      apply lookup_replicate in Hi as [? _]. discriminate. }
    destruct (gather_at_completion s' Hlog Hdone) as [out Hout].
    exists s', out. split; assumption. }
  split; [|split; [exact Hlive|]].
  - destruct (Hlive _ (ex_intro _ _ (conj Hinit (rtc_refl _ _))))
      as (s' & out & Hrun & Hout).
    exists out. unfold Batch.check_proxies. rewrite Hinit. eauto.
  - intros n s0 s Hs0 Hn. rewrite Hinit in Hs0. injection Hs0 as <-.
    pose proof (nsteps_remaining _ _ _ _ _ _ Hn) as Hrem. simpl in Hrem.
    rewrite (proj2 (weight_replicate_waiting _)) in Hrem. lia.
Qed.

End BatchLiveness.

Lemma check_proxies_never_hangs_witness :
  exists out,
    Batch.check_proxies Sample.checker ["a:1"; "b:2"]%string 1
      Cases.cancelled_worlds out.
Proof.
  exact (proj1 (check_proxies_never_hangs Sample.checker
                  ["a:1"; "b:2"]%string 1 Cases.cancelled_worlds
                  ltac:(lia))).
Defined.

Lemma check_proxies_zero_limit_witness :
  Batch.check_proxies Sample.checker [] 0 Sample.batch_worlds (Return []) /\
  ~ Batch.check_proxies Sample.checker Sample.batch 0 Sample.batch_worlds
      (Return Sample.batch_results).
Proof.
  split.
  - apply (proj2 (check_proxies_zero_limit Sample.checker [] Sample.batch_worlds
                    (Return []))).
    split; reflexivity.
  - intros H.
    apply (check_proxies_zero_limit Sample.checker Sample.batch
             Sample.batch_worlds) in H as [Hnil _].
    discriminate Hnil.
Defined.

Lemma to_response_inj_witness :
  Endpoint.to_response (failure "http://a:1" FAILED "HTTP 403")
  <> Endpoint.to_response (failure "http://a:1" TIMEOUT "HTTP 403").
Proof.
  intros H.
  apply (proj1 (to_response_inj _ _)) in H. discriminate H.
Defined.
